(** * bisslog-flask: the metadata-to-route binder of [init_flask_app.py]

    A shallow embedding of [bisslog_flask/init_flask_app.py] and the
    properties its specification states about it.

    Python text is modelled as [string] (ASCII text: [str.upper],
    [str.lower] and [str.split] act on the ASCII letters and the ASCII
    white space), dictionaries with string keys as [gmap string _],
    ordered dictionaries that are only iterated as association lists, and
    code that raises as a value of [exn + _]. *)

From Stdlib Require Import Ascii String List ZArith Lia Bool.
From stdpp Require Import base option list gmap strings fin_maps.

Local Open Scope string_scope.
Local Open Scope list_scope.
Set Warnings "-register-all".

(** ** Python text primitives *)

Module PyStr.

Definition code (c : ascii) : nat := nat_of_ascii c.

(** [A-Z], the class of the regular expression of the symbol derivation. *)
Definition is_upper (c : ascii) : bool :=
  (65 <=? code c)%nat && (code c <=? 90)%nat.

Definition is_lower (c : ascii) : bool :=
  (97 <=? code c)%nat && (code c <=? 122)%nat.

(** The ASCII characters for which [str.isspace] holds: TAB, LF, VT, FF,
    CR, the four separators 0x1c..0x1f and the space. *)
Definition is_space (c : ascii) : bool :=
  ((9 <=? code c)%nat && (code c <=? 13)%nat)
  || ((28 <=? code c)%nat && (code c <=? 32)%nat).

Definition upper_char (c : ascii) : ascii :=
  if is_lower c then ascii_of_nat (code c - 32) else c.

Definition lower_char (c : ascii) : ascii :=
  if is_upper c then ascii_of_nat (code c + 32) else c.

Fixpoint map_chars (f : ascii -> ascii) (s : string) : string :=
  match s with
  | EmptyString => EmptyString
  | String c s' => String (f c) (map_chars f s')
  end.

(** [s.upper()] and [s.lower()]. *)
Definition upper (s : string) : string := map_chars upper_char s.
Definition lower (s : string) : string := map_chars lower_char s.

(** [s.replace(old, new)] for one-character [old] and [new]. *)
Definition replace_char (old new : ascii) (s : string) : string :=
  map_chars (fun c => if Ascii.eqb c old then new else c) s.

(** [sep.join(l)]. *)
Fixpoint join (sep : string) (l : list string) : string :=
  match l with
  | [] => ""
  | [x] => x
  | x :: rest => x +:+ sep +:+ join sep rest
  end.

(** Close the word being read, if there is one. *)
Definition flush (cur : string) (rest : list string) : list string :=
  match cur with
  | EmptyString => rest
  | _ => cur :: rest
  end.

Definition snoc (cur : string) (c : ascii) : string :=
  cur +:+ String c EmptyString.

(** [s.split()]: the maximal runs of characters that are not white
    space; [cur] is the run being read. *)
Fixpoint split_ws (cur : string) (s : string) : list string :=
  match s with
  | EmptyString => flush cur []
  | String c s' =>
      if is_space c then flush cur (split_ws EmptyString s')
      else split_ws (snoc cur c) s'
  end.

Definition split (s : string) : list string := split_ws EmptyString s.

(** [re.sub(r"([A-Z])", r" \1", s)]: a space before every capital. *)
Fixpoint sub_capitals (s : string) : string :=
  match s with
  | EmptyString => EmptyString
  | String c s' =>
      if is_upper c then String " " (String c (sub_capitals s'))
      else String c (sub_capitals s')
  end.

Fixpoint forallb_chars (p : ascii -> bool) (s : string) : bool :=
  match s with
  | EmptyString => true
  | String c s' => p c && forallb_chars p s'
  end.

(** [sub in s] of Python. *)
Definition contains (s sub : string) : Prop :=
  exists pre post, s = pre +:+ sub +:+ post.

End PyStr.

(** ** Route paths (lines 85-86 of [_add_use_case]) *)

(** [trigger.options.path.replace("{", "<").replace("}", ">")] *)
Definition route_path (path : string) : string :=
  PyStr.replace_char "}" ">" (PyStr.replace_char "{" "<" path).

(** A path template as the specification reads it: literal text and named
    placeholders, in order. *)
Inductive segment : Type :=
| Lit (text : string)
| Placeholder (name : string).

Definition brace_free (s : string) : bool :=
  PyStr.forallb_chars
    (fun c => negb (Ascii.eqb c "{") && negb (Ascii.eqb c "}")) s.

Definition segment_wf (g : segment) : bool :=
  match g with
  | Lit text => brace_free text
  | Placeholder name => brace_free name
  end.

Definition template_wf (t : list segment) : bool := forallb segment_wf t.

(** The text of a template in the metadata syntax, [{name}]. *)
Fixpoint template_text (t : list segment) : string :=
  match t with
  | [] => ""
  | Lit text :: t' => text +:+ template_text t'
  | Placeholder name :: t' => "{" +:+ name +:+ "}" +:+ template_text t'
  end.

(** The same template in the framework syntax, [<name>]. *)
Fixpoint flask_text (t : list segment) : string :=
  match t with
  | [] => ""
  | Lit text :: t' => text +:+ flask_text t'
  | Placeholder name :: t' => "<" +:+ name +:+ ">" +:+ flask_text t'
  end.

(** ** Symbol derivation (lines 156-159 of [init_flask_app]) *)

(** ["_".join([i.upper() for i in re.sub(...).split()])] *)
Definition symbol_name (keyname : string) : string :=
  PyStr.join "_" (map PyStr.upper (PyStr.split (PyStr.sub_capitals keyname))).

(** [f"{use_case_src}.{use_case_info.keyname}"] *)
Definition module_path (use_case_src keyname : string) : string :=
  use_case_src +:+ "." +:+ keyname.

(** The derivation as the specification words it: every capital letter
    starts a new segment; [cur] is the segment being read. *)
Fixpoint camel_segments_from (cur : string) (s : string) : list string :=
  match s with
  | EmptyString => PyStr.flush cur []
  | String c s' =>
      if PyStr.is_upper c
      then PyStr.flush cur (camel_segments_from (String c EmptyString) s')
      else camel_segments_from (PyStr.snoc cur c) s'
  end.

Definition camel_segments (s : string) : list string :=
  camel_segments_from EmptyString s.

Definition spec_symbol_name (keyname : string) : string :=
  PyStr.join "_" (map PyStr.upper (camel_segments keyname)).

Definition no_space (s : string) : bool :=
  PyStr.forallb_chars (fun c => negb (PyStr.is_space c)) s.

(** ** Python values and exceptions *)

(** The values a decoded JSON body, a path parameter or a result can be.
    A dictionary lists its items in insertion order; JSON numbers are
    taken to be integers. *)
Inductive pyval : Type :=
| VNone
| VBool (b : bool)
| VInt (z : Z)
| VStr (s : string)
| VList (l : list pyval)
| VDict (items : list (string * pyval)).

(** [External] stands for whatever a collaborator (the use case, the
    mapper, the serializer, the importer, the framework) raises. *)
Inductive exn : Type :=
| TypeError
| ValueError
| External (what : string).

(** [bool(v)] *)
Definition truthy (v : pyval) : bool :=
  match v with
  | VNone => false
  | VBool b => b
  | VInt z => negb (Z.eqb z 0)
  | VStr s => negb (String.eqb s "")
  | VList l => match l with [] => false | _ => true end
  | VDict items => match items with [] => false | _ => true end
  end.

(** [v or {}] *)
Definition or_empty_dict (v : pyval) : pyval :=
  if truthy v then v else VDict [].

(** The keyword dictionary built from items, a later item replacing an
    earlier one with the same key. *)
Definition dict_of_items (m : gmap string pyval)
  (items : list (string * pyval)) : gmap string pyval :=
  fold_left (fun acc kv => <[kv.1 := kv.2]> acc) items m.

Fixpoint chars_of (s : string) : list pyval :=
  match s with
  | EmptyString => []
  | String c s' => VStr (String c EmptyString) :: chars_of s'
  end.

(** [iter(v)]: the elements of an iterable, [None] when [v] is not one. *)
Definition iterate (v : pyval) : option (list pyval) :=
  match v with
  | VList l => Some l
  | VStr s => Some (chars_of s)
  | VDict items => Some (map (fun kv => VStr kv.1) items)
  | _ => None
  end.

(** A dictionary under construction by [dict.update]: the entries with a
    string key, and whether a key that is not a string was stored. *)
Record building : Type := Building {
  entries : gmap string pyval;
  other_keys : bool
}.

(** One element of the sequence given to [dict.update]: it must be an
    iterable of two items, the first of them hashable. *)
Definition update_item (b : building) (e : pyval) : exn + building :=
  match iterate e with
  | None => inl TypeError
  | Some [k; v] =>
      match k with
      | VStr key => inr (Building (<[key := v]> (entries b)) (other_keys b))
      | VList _ | VDict _ => inl TypeError
      | _ => inr (Building (entries b) true)
      end
  | Some _ => inl ValueError
  end.

Fixpoint update_items (b : building) (l : list pyval) : exn + building :=
  match l with
  | [] => inr b
  | e :: l' =>
      match update_item b e with
      | inl err => inl err
      | inr b' => update_items b' l'
      end
  end.

(** [d.update(v)] *)
Definition dict_update (b : building) (v : pyval) : exn + building :=
  match v with
  | VDict items => inr (Building (dict_of_items (entries b) items) (other_keys b))
  | _ =>
      match iterate v with
      | None => inl TypeError
      | Some l => update_items b l
      end
  end.

(** ** The request adapter (lines 24-52) *)

(** What the adapter reads of [flask.request]. *)
Record Request : Type := {
  request_method : string;                            (* request.method *)
  request_view_args : option (list (string * pyval)); (* request.view_args *)
  request_get_json : pyval;            (* request.get_json(silent=True) *)
  request_args : list (string * string);      (* request.args.to_dict() *)
  request_headers : list (string * string)    (* dict(request.headers) *)
}.

Definition str_items (l : list (string * string)) : list (string * pyval) :=
  map (fun kv => (kv.1, VStr kv.2)) l.

(** The dictionary literal of lines 32-37. *)
Definition snapshot (req : Request) : gmap string pyval :=
  <["path_query" := VDict (default [] (request_view_args req))]>
  (<["body" := or_empty_dict (request_get_json req)]>
  (<["params" := VDict (str_items (request_args req))]>
  (<["headers" := VDict (str_items (request_headers req))]> ∅))).

(** One invocation of the wrapped use case. *)
Record call : Type := Call {
  call_args : list pyval;
  call_kwargs : gmap string pyval
}.

(** A computation of the adapter: the invocations it made, in order, and
    the value it returned or the exception it raised. *)
Definition Act (A : Type) : Type := (list call * (exn + A))%type.

Definition act_ret {A} (a : A) : Act A := ([], inr a).
Definition act_raise {A} (e : exn) : Act A := ([], inl e).
Definition act_lift {A} (r : exn + A) : Act A := ([], r).
Definition act_bind {A B} (c : Act A) (k : A -> Act B) : Act B :=
  match c.2 with
  | inl e => (c.1, inl e)
  | inr a => ((c.1 ++ (k a).1)%list, (k a).2)
  end.

Declare Scope act_scope.
Delimit Scope act_scope with act.
Notation "'let*' x ':=' c 'in' k" := (act_bind c (fun x => k))
  (at level 10, x name, c at level 100, k at level 200) : act_scope.

Inductive reply (Response : Type) : Type :=
| Raw (v : pyval)
| Json (r : Response).
Arguments Raw {Response} v.
Arguments Json {Response} r.

Section Adapter.

(** The collaborators: the use-case objects and what calling one does,
    the mappers of [bisslog.utils.mapping] and flask's [jsonify]. *)
Variable callable : Type.
Variable apply : callable -> list pyval -> gmap string pyval -> exn + pyval.
Variable Mapper : Type.
Variable Mapper_map : Mapper -> gmap string pyval -> exn + gmap string pyval.
Variable Response : Type.
Variable jsonify : pyval -> exn + Response.

(** The call of [fn] with positional arguments [args] and keyword
    arguments [kw]. *)
Definition invoke (fn : callable) (args : list pyval)
  (kw : gmap string pyval) : Act pyval :=
  ([Call args kw], apply fn args kw).

(** The call of line 30, which unpacks [kwargs] and [more_kwargs] into
    one keyword dictionary: a keyword given twice, or a key that is not
    a string, is a [TypeError] raised before [fn] runs. *)
Definition invoke_merged (fn : callable) (args : list pyval)
  (kwargs : gmap string pyval) (more : building) : Act pyval :=
  if other_keys more then act_raise TypeError
  else if decide (kwargs ##ₘ entries more)
       then invoke fn args (kwargs ∪ entries more)
       else act_raise TypeError.

Definition is_get (req : Request) : bool :=
  String.eqb (PyStr.lower (request_method req)) "get".

Definition _lambda_fn (args : list pyval) (fn : callable)
  (__mapper__ : option Mapper) (kwargs : gmap string pyval)
  (req : Request) : Act (reply Response) :=
  (match __mapper__ with
   | None =>
       let* more_kwargs := act_lift
         (if negb (is_get req)
          then dict_update (Building ∅ false)
                 (or_empty_dict (request_get_json req))
          else inr (Building ∅ false)) in
       let* res := invoke_merged fn args kwargs more_kwargs in
       act_ret (Raw res)
   | Some mapper =>
       let* res_map := act_lift (Mapper_map mapper (snapshot req)) in
       let* res := invoke fn [] res_map in
       let* json := act_lift (jsonify res) in
       act_ret (Json json)
   end)%act.

End Adapter.

(** ** Service metadata, as [bisslog_schema] hands it over *)

Inductive TriggerEnum : Type := HTTP | WEBSOCKET | CONSUMER | SCHEDULE.

(** The fields of [TriggerHttp] the binder reads; [allow_cors] and
    [allowed_origins] may be absent ([None]). *)
Record TriggerHttp : Type := {
  method : string;
  path : string;
  allow_cors : option bool;
  allowed_origins : option (list string);
  mapper : option (list (string * string))
}.

(** The option payload of a trigger: the HTTP variant or another one. *)
Inductive TriggerOptions : Type :=
| OptionsHttp (o : TriggerHttp)
| OptionsOther.

Record TriggerInfo : Type := {
  type : TriggerEnum;
  options : TriggerOptions
}.

Record UseCaseInfo : Type := {
  keyname : string;
  triggers : list TriggerInfo
}.

Record ServiceInfo : Type := {
  name : string;
  use_cases : list (string * UseCaseInfo)
}.

(** [trigger.type in (TriggerEnum.HTTP, TriggerEnum.WEBSOCKET)] *)
Definition qualifies (t : TriggerInfo) : bool :=
  match type t with
  | HTTP | WEBSOCKET => true
  | _ => false
  end.

(** [isinstance(trigger.options, TriggerHttp)] *)
Definition is_http_options (t : TriggerInfo) : bool :=
  match options t with
  | OptionsHttp _ => true
  | OptionsOther => false
  end.

(** The triggers the binder acts on, in declared order. *)
Definition qualifying (ts : list TriggerInfo) : list TriggerInfo :=
  List.filter qualifies ts.

Definition skipped (ts : list TriggerInfo) : bool :=
  forallb (fun t => negb (qualifies t)) ts.

(** ** The per-route cross-origin policy *)

(** The value under ["origins"]: a list of origins or a string. *)
Inductive origins_value : Type :=
| OriginList (l : list string)
| OriginStr (s : string).

Record cors_config : Type := {
  methods : list string;
  allow_headers : list string;
  supports_credentials : bool;
  origins : origins_value
}.

(** Truth of an optional flag and of an optional list. *)
Definition flag_set (b : option bool) : bool := default false b.

Definition nonempty {A} (l : option (list A)) : bool :=
  match l with
  | Some (_ :: _) => true
  | _ => false
  end.

(** ** The binder (lines 43-171) *)

(** What the binder does outside the application object. *)
Inductive event : Type :=
| Imported (module : string)
| LookedUp (module var : string)
| Printed (line : string).

(** The modules imported and the symbols looked up, in order. *)
Definition imports_of (tr : list event) : list string :=
  flat_map (fun e => match e with Imported m => [m] | _ => [] end) tr.

Definition lookups_of (tr : list event) : list (string * string) :=
  flat_map (fun e => match e with LookedUp m v => [(m, v)] | _ => [] end) tr.

(** What [n] failed attempts to locate a use case leave in the trace. *)
Definition failed_attempts (mp var line : string) (n : nat) : list event :=
  concat (repeat [Imported mp; LookedUp mp var; Printed line] n).

Section Binder.

(** The collaborators: the objects a module holds, [copy.deepcopy], the
    [Mapper] constructor, [importlib.import_module], the text of a
    [UseCaseInfo] in an f-string. *)
Variable callable : Type.
Variable deepcopy : callable -> callable.
Variable Mapper : Type.
Variable new_Mapper : string -> list (string * string) -> exn + Mapper.
Variable import_module : string -> exn + gmap string (option callable).
Variable format_use_case : UseCaseInfo -> string.

(** The view function [uc] of [_use_case_factory]: a closure over the
    copied use case and the mapper. *)
Record view_func : Type := {
  use_case_fn_copy : callable;
  view_mapper : option Mapper
}.

Record url_rule : Type := {
  rule : string;
  endpoint : string;
  rule_methods : list string;
  view : view_func
}.

(** The application: its name, its configuration, its rules in the
    order of registration and the cross-origin resources attached. *)
Record Flask : Type := {
  import_name : string;
  config : gmap string string;
  url_rules : list url_rule;
  cors_resources : list (string * cors_config)
}.

(** The framework: the application [Flask(name)] creates and the error,
    if any, with which [add_url_rule] rejects a rule. *)
Variable new_Flask : string -> Flask.
Variable add_url_rule_error : Flask -> url_rule -> option exn.
Variable read_service_metadata : option string -> string -> exn + ServiceInfo.

Record World : Type := {
  trace : list event;
  flask_app : Flask
}.

Definition Run (A : Type) : Type := World -> World * (exn + A).

Definition run_ret {A} (a : A) : Run A := fun w => (w, inr a).
Definition run_lift {A} (r : exn + A) : Run A := fun w => (w, r).
Definition run_bind {A B} (c : Run A) (k : A -> Run B) : Run B :=
  fun w =>
    match c w with
    | (w', inl e) => (w', inl e)
    | (w', inr a) => k a w'
    end.

Definition emit (e : event) : Run unit :=
  fun w => ({| trace := trace w ++ [e]; flask_app := flask_app w |}, inr tt).

Definition set_app (f : Flask -> Flask) : Run unit :=
  fun w => ({| trace := trace w; flask_app := f (flask_app w) |}, inr tt).

Notation "'let*' x ':=' c 'in' k" := (run_bind c (fun x => k))
  (at level 10, x name, c at level 100, k at level 200).
Notation "c ;; k" := (run_bind c (fun _ => k))
  (at level 100, k at level 200, right associativity).

(** [CORS(app, resources={path: cors_config})] *)
Definition CORS (p : string) (c : cors_config) : Run unit :=
  set_app (fun a =>
    {| import_name := import_name a; config := config a;
       url_rules := url_rules a;
       cors_resources := cors_resources a ++ [(p, c)] |}).

(** [app.add_url_rule(...)] *)
Definition add_url_rule (r : url_rule) : Run unit :=
  fun w =>
    match add_url_rule_error (flask_app w) r with
    | Some e => (w, inl e)
    | None =>
        set_app (fun a =>
          {| import_name := import_name a; config := config a;
             url_rules := url_rules a ++ [r];
             cors_resources := cors_resources a |}) w
    end.

(** [app.config[key] = value] *)
Definition set_config (key value : string) (a : Flask) : Flask :=
  {| import_name := import_name a; config := <[key := value]> (config a);
     url_rules := url_rules a; cors_resources := cors_resources a |}.

Definition _use_case_factory (use_case_name : string) (fn : callable)
  (mapper : option (list (string * string))) : exn + view_func :=
  let copy := deepcopy fn in
  match mapper with
  | None => inr {| use_case_fn_copy := copy; view_mapper := None |}
  | Some base =>
      match new_Mapper ("Mapper " +:+ use_case_name) base with
      | inl e => inl e
      | inr m => inr {| use_case_fn_copy := copy; view_mapper := Some m |}
      end
  end.

Definition _configure_endpoint_cors (p : string)
  (trigger_options : TriggerHttp) : Run unit :=
  if negb (flag_set (allow_cors trigger_options)) then run_ret tt
  else
    CORS p
      {| methods := [PyStr.upper (method trigger_options)];
         allow_headers := ["Content-Type"; "Authorization"];
         supports_credentials := true;
         origins :=
           if nonempty (allowed_origins trigger_options)
           then OriginList (default [] (allowed_origins trigger_options))
           else OriginStr "*" |}.

Definition _add_use_case (use_case_info : UseCaseInfo)
  (trigger : TriggerInfo) (use_case_function : callable) : Run unit :=
  match options trigger with
  | OptionsOther => run_ret tt
  | OptionsHttp o =>
      let m := PyStr.upper (method o) in
      let p := route_path (path o) in
      _configure_endpoint_cors p o ;;
      let* v := run_lift (_use_case_factory (keyname use_case_info)
                            use_case_function (mapper o)) in
      add_url_rule
        {| rule := p; endpoint := keyname use_case_info;
           rule_methods := [m]; view := v |}
  end.

(** Lines 163-164 and 168-169: the route is added for an HTTP payload. *)
Definition add_if_http (use_case_info : UseCaseInfo)
  (trigger : TriggerInfo) (use_case_function : callable) : Run unit :=
  if is_http_options trigger
  then _add_use_case use_case_info trigger use_case_function
  else run_ret tt.

(** Lines 156-166: import, derive the symbol, look it up. The result is
    the new value of [use_case_function]. *)
Definition locate (use_case_src : string) (use_case_info : UseCaseInfo)
  (trigger : TriggerInfo) : Run (option callable) :=
  let mp := module_path use_case_src (keyname use_case_info) in
  emit (Imported mp) ;;
  let* module := run_lift (import_module mp) in
  let var := symbol_name (keyname use_case_info) in
  emit (LookedUp mp var) ;;
  match module !! var with
  | Some found =>
      match found with
      | Some fn => add_if_http use_case_info trigger fn
      | None => run_ret tt
      end ;;
      run_ret found
  | None =>
      emit (Printed ("Use case implementation '"
                     +:+ format_use_case use_case_info +:+ "' not found")) ;;
      run_ret None
  end.

(** The loop of lines 150-169 over the triggers still to visit. *)
Fixpoint triggers_loop (use_case_src : string) (use_case_info : UseCaseInfo)
  (ts : list TriggerInfo) (use_case_function : option callable) : Run unit :=
  match ts with
  | [] => run_ret tt
  | trigger :: ts' =>
      if negb (qualifies trigger)
      then triggers_loop use_case_src use_case_info ts' use_case_function
      else
        match use_case_function with
        | None =>
            let* found := locate use_case_src use_case_info trigger in
            triggers_loop use_case_src use_case_info ts' found
        | Some fn =>
            add_if_http use_case_info trigger fn ;;
            triggers_loop use_case_src use_case_info ts' (Some fn)
        end
  end.

(** One iteration of the loop of line 147. *)
Definition bind_use_case (use_case_src : string)
  (use_case_info : UseCaseInfo) : Run unit :=
  triggers_loop use_case_src use_case_info (triggers use_case_info) None.

Fixpoint use_cases_loop (use_case_src : string)
  (ucs : list UseCaseInfo) : Run unit :=
  match ucs with
  | [] => run_ret tt
  | use_case_info :: rest =>
      bind_use_case use_case_src use_case_info ;;
      use_cases_loop use_case_src rest
  end.

Definition configure (key : string) (value : option string)
  (a : Flask) : Flask :=
  match value with
  | Some v => set_config key v a
  | None => a
  end.

(** [init_flask_app]: [inl] when the metadata cannot be read; otherwise
    the world after the binding and the application returned, or the
    exception that ended the binding. *)
Definition init_flask_app (path : option string) (app : option Flask)
  (encoding : string) (secret_key jwt_secret_key : option string)
  (use_case_src : string) : exn + (World * (exn + Flask)) :=
  match read_service_metadata path encoding with
  | inl e => inl e
  | inr service_info =>
      let app0 := default (new_Flask (name service_info)) app in
      let app1 := configure "SECRET_KEY" secret_key app0 in
      let app2 := configure "JWT_SECRET_KEY" jwt_secret_key app1 in
      let r := use_cases_loop use_case_src
                 (map snd (use_cases service_info))
                 {| trace := []; flask_app := app2 |} in
      inr (r.1, match r.2 with inl e => inl e | inr _ => inr (flask_app r.1) end)
  end.

(** From [w] to [w'] nothing was imported, looked up or printed, and
    every rule added wraps the copy of [fn]. *)
Definition reuses (fn : callable) (w w' : World) : Prop :=
  trace w' = trace w
  /\ exists added,
       url_rules (flask_app w') = url_rules (flask_app w) ++ added
       /\ Forall (fun u => use_case_fn_copy (view u) = deepcopy fn) added.

End Binder.

Arguments use_case_fn_copy {callable Mapper} v.
Arguments view_mapper {callable Mapper} v.
Arguments rule {callable Mapper} u.
Arguments endpoint {callable Mapper} u.
Arguments rule_methods {callable Mapper} u.
Arguments view {callable Mapper} u.
Arguments import_name {callable Mapper} f.
Arguments config {callable Mapper} f.
Arguments url_rules {callable Mapper} f.
Arguments cors_resources {callable Mapper} f.
Arguments trace {callable Mapper} w.
Arguments flask_app {callable Mapper} w.
Arguments run_ret {callable Mapper A} a w.
Arguments run_bind {callable Mapper A B} c k w.
Arguments emit {callable Mapper} e w.
Arguments CORS {callable Mapper} p c w.
Arguments _configure_endpoint_cors {callable Mapper} p trigger_options w.

(** The view function [uc] of lines 49-50: the framework's keywords are
    passed on next to [fn] and [__mapper__], so a keyword with one of
    these two names is given twice. *)
Definition uc {callable Mapper Response : Type}
  (apply : callable -> list pyval -> gmap string pyval -> exn + pyval)
  (Mapper_map : Mapper -> gmap string pyval -> exn + gmap string pyval)
  (jsonify : pyval -> exn + Response)
  (v : view_func callable Mapper) (args : list pyval)
  (kwargs : gmap string pyval) (req : Request) : Act (reply Response) :=
  match kwargs !! "fn", kwargs !! "__mapper__" with
  | None, None =>
      _lambda_fn callable apply Mapper Mapper_map Response jsonify args
        (use_case_fn_copy v) (view_mapper v) kwargs req
  | _, _ => act_raise TypeError
  end.

(** ** The code generator (static mode) *)

(** The two variants of [UseCaseCodeInfo], with the arguments in the
    order of their constructors: keyname, docstring, module, then the
    class name or the instance name. *)
Inductive UseCaseCodeInfo : Type :=
| UseCaseCodeInfoClass (name docs module class_name : string)
| UseCaseCodeInfoObject (name docs module var_name : string).

(** What [_generate_use_case_code_build] can be given: a code-info object
    or anything else. *)
Inductive build_argument : Type :=
| CodeInfo (info : UseCaseCodeInfo)
| OtherObject.

(** A code construct: the build text and the import table. *)
Record StaticPythonConstructData : Type := {
  build : string;
  importing : gmap string (gset string)
}.

(** Modelled from the spec: [BuilderFlaskAppManager._generate_use_case_code_build]
    (bisslog_flask/builder/builder_flask_app_manager.py, of which only the
    tests are among the sources). A class-based use case is imported from
    its module and instantiated under the name [<keyname>_uc]; an
    object-based one is imported and used under its bare keyname; anything
    else is a configuration error. *)
Definition _generate_use_case_code_build (arg : build_argument)
  : exn + (string * StaticPythonConstructData) :=
  match arg with
  | CodeInfo (UseCaseCodeInfoClass name _ module class_name) =>
      let uc_name := name +:+ "_uc" in
      inr (uc_name,
           {| build := uc_name +:+ " = " +:+ class_name +:+ "()";
              importing := {[ module := {[ class_name ]} ]} |})
  | CodeInfo (UseCaseCodeInfoObject name _ module var_name) =>
      inr (name, {| build := ""; importing := {[ module := {[ var_name ]} ]} |})
  | OtherObject => inl ValueError
  end.

(** ** The specification's reading of a decoded body *)

(** The keyword arguments a decoded body stands for: the members of a
    JSON object, none at all when the body is absent, invalid or
    otherwise false; [None] for another JSON value. *)
Definition body_kwargs (v : pyval) : option (gmap string pyval) :=
  if truthy v then
    match v with
    | VDict items => Some (dict_of_items ∅ items)
    | _ => None
    end
  else Some ∅.

(** The result of the use case handed back as it is. *)
Definition raw_result {Response} (r : exn + pyval) : exn + reply Response :=
  match r with
  | inl e => inl e
  | inr v => inr (Raw v)
  end.

(** ** A concrete deployment, for the examples *)

Module Demo.

(** Use-case objects are named; a mapper is its base table; a response
    is the value it serializes. *)
Definition callable : Type := string.
Definition Mapper : Type := list (string * string).

Definition deepcopy (fn : callable) : callable := fn.
Definition new_Mapper (_ : string) (base : list (string * string))
  : exn + Mapper := inr base.

(** Two modules exist: [use_cases.myUseCase] holds [MY_USE_CASE],
    [use_cases.ghost] holds nothing. *)
Definition import_module (mp : string) : exn + gmap string (option callable) :=
  if String.eqb mp "use_cases.myUseCase"
  then inr {[ "MY_USE_CASE" := Some "my_use_case_object" ]}
  else if String.eqb mp "use_cases.ghost" then inr ∅
  else inl (External "ModuleNotFoundError").

Definition format_use_case (u : UseCaseInfo) : string := keyname u.

Definition empty_app (n : string) : Flask callable Mapper :=
  {| import_name := n; config := ∅; url_rules := []; cors_resources := [] |}.

(** Every view function is a new closure, so the framework rejects a
    second rule for an endpoint that already has one. *)
Definition add_url_rule_error (a : Flask callable Mapper)
  (r : url_rule callable Mapper) : option exn :=
  if existsb (fun r' => String.eqb (endpoint r') (endpoint r)) (url_rules a)
  then Some (External "AssertionError") else None.

Definition world0 : World callable Mapper :=
  {| trace := []; flask_app := empty_app "demo" |}.

Definition http (m p : string) (cors : option bool)
  (allowed : option (list string)) : TriggerInfo :=
  {| type := HTTP;
     options := OptionsHttp {| method := m; path := p; allow_cors := cors;
                               allowed_origins := allowed; mapper := None |} |}.

Definition schedule : TriggerInfo :=
  {| type := SCHEDULE; options := OptionsOther |}.

Definition my_use_case : UseCaseInfo :=
  {| keyname := "myUseCase";
     triggers := [schedule; http "get" "/things/{id}" (Some true) None;
                  http "post" "/things" None None] |}.

Definition ghost : UseCaseInfo :=
  {| keyname := "ghost";
     triggers := [http "get" "/ghost" None None;
                  http "post" "/ghost" None None] |}.

Definition timer : UseCaseInfo :=
  {| keyname := "timer"; triggers := [schedule] |}.

Definition run_use_case (u : UseCaseInfo) (w : World callable Mapper) :=
  bind_use_case callable deepcopy Mapper new_Mapper import_module
    format_use_case add_url_rule_error "use_cases" u w.

(** The use case of the adapter examples answers with its keywords. *)
Definition apply (_ : callable) (_ : list pyval) (kw : gmap string pyval)
  : exn + pyval := inr (VDict (map_to_list kw)).
Definition Mapper_map (_ : Mapper) (snap : gmap string pyval)
  : exn + gmap string pyval :=
  inr {[ "id" := default VNone (snap !! "path_query") ]}.
Definition jsonify (v : pyval) : exn + pyval := inr v.

Definition post_request (body : pyval) : Request :=
  {| request_method := "POST"; request_view_args := Some [("id", VInt 7)];
     request_get_json := body; request_args := []; request_headers := [] |}.

Definition adapter (m : option Mapper) (kwargs : gmap string pyval)
  (req : Request) : Act (reply pyval) :=
  _lambda_fn callable apply Mapper Mapper_map pyval jsonify [] "uc" m kwargs req.

End Demo.

(** ** Shapes of what the binder registers *)

Definition no_lower (s : string) : bool :=
  PyStr.forallb_chars (fun c => negb (PyStr.is_lower c)) s.

Definition no_upper (s : string) : bool :=
  PyStr.forallb_chars (fun c => negb (PyStr.is_upper c)) s.

(** A list of methods that holds one method, without lower-case letter. *)
Definition one_upper_method (ms : list string) : bool :=
  match ms with
  | [m] => no_lower m
  | _ => false
  end.

(** The HTTP payloads of a list of triggers, in order. *)
Definition http_payloads (ts : list TriggerInfo) : list TriggerHttp :=
  flat_map (fun t => match options t with
                     | OptionsHttp o => [o]
                     | OptionsOther => []
                     end) ts.

(** Path, endpoint and methods of the rule a payload stands for. *)
Definition expected_route (k : string) (o : TriggerHttp)
  : string * string * list string :=
  (route_path (path o), k, [PyStr.upper (method o)]).

(** A JSON array of two-element arrays [[key, value]]. *)
Definition pair_items (ps : list (string * pyval)) : list pyval :=
  map (fun kv => VList [VStr kv.1; kv.2]) ps.

Section Shapes.

Variable callable : Type.
Variable Mapper : Type.

Definition summary (u : url_rule callable Mapper)
  : string * string * list string :=
  (rule u, endpoint u, rule_methods u).

(** A rule as the binder makes it for the use case [k]. *)
Definition rule_ok (k : string) (u : url_rule callable Mapper) : bool :=
  brace_free (rule u) && String.eqb (endpoint u) k
  && one_upper_method (rule_methods u).

Definition rule_of_some (ucs : list UseCaseInfo)
  (u : url_rule callable Mapper) : bool :=
  existsb (fun uc => rule_ok (keyname uc) u) ucs.

(** A cross-origin resource as the binder makes it. *)
Definition policy_ok (pc : string * cors_config) : bool :=
  brace_free pc.1
  && one_upper_method (methods pc.2)
  && bool_decide (allow_headers pc.2 = ["Content-Type"; "Authorization"])
  && supports_credentials pc.2
  && match origins pc.2 with
     | OriginStr s => String.eqb s "*"
     | OriginList l => match l with [] => false | _ => true end
     end.

(** From [w] to [w'] the application keeps its name and its
    configuration, and the rules, the cross-origin resources and the trace
    are only appended to, with rules that satisfy [P] and resources that
    satisfy [Q]. *)
Definition grows (P : url_rule callable Mapper -> bool)
  (Q : string * cors_config -> bool) (w w' : World callable Mapper) : Prop :=
  import_name (flask_app w') = import_name (flask_app w)
  /\ config (flask_app w') = config (flask_app w)
  /\ (exists events, trace w' = trace w ++ events)
  /\ (exists added,
        url_rules (flask_app w') = url_rules (flask_app w) ++ added
        /\ forallb P added = true)
  /\ (exists attached,
        cors_resources (flask_app w') = cors_resources (flask_app w) ++ attached
        /\ forallb Q attached = true).

End Shapes.

Arguments summary {callable Mapper} u.
Arguments rule_ok {callable Mapper} k u.
Arguments rule_of_some {callable Mapper} ucs u.
Arguments grows {callable Mapper} P Q w w'.

(** ** A second deployment, for the examples *)

Module Demo2.

(** [use_cases.pending] holds [PENDING], bound to [None]; the other
    modules are those of [Demo]. *)
Definition import_module (mp : string)
  : exn + gmap string (option Demo.callable) :=
  if String.eqb mp "use_cases.pending" then inr {[ "PENDING" := None ]}
  else Demo.import_module mp.

(** A mapper constructor that rejects a table naming the source
    [cookie]. *)
Definition new_Mapper (_ : string) (base : list (string * string))
  : exn + Demo.Mapper :=
  if existsb (fun kv => String.eqb kv.2 "cookie.id") base
  then inl (External "ValueError") else inr base.

(** A framework that accepts every rule. *)
Definition add_url_rule_error (_ : Flask Demo.callable Demo.Mapper)
  (_ : url_rule Demo.callable Demo.Mapper) : option exn := None.

Definition mapped (m p : string) (base : list (string * string))
  : TriggerInfo :=
  {| type := HTTP;
     options := OptionsHttp {| method := m; path := p; allow_cors := Some true;
                               allowed_origins := None; mapper := Some base |} |}.

Definition socket : TriggerInfo :=
  {| type := WEBSOCKET; options := OptionsOther |}.

Definition pending : UseCaseInfo :=
  {| keyname := "pending";
     triggers := [Demo.http "get" "/pending" None None; Demo.schedule;
                  Demo.http "put" "/pending/{id}" None None] |}.

Definition absent : UseCaseInfo :=
  {| keyname := "absent";
     triggers := [Demo.schedule; Demo.http "get" "/absent" None None] |}.

Definition sockets : UseCaseInfo :=
  {| keyname := "myUseCase"; triggers := [socket; Demo.schedule; socket] |}.

Definition service : ServiceInfo :=
  {| name := "orders";
     use_cases := [("timer", Demo.timer); ("myUseCase", Demo.my_use_case)] |}.

Definition read_service_metadata (_ : option string) (_ : string)
  : exn + ServiceInfo := inr service.

Definition run_use_case (u : UseCaseInfo)
  (w : World Demo.callable Demo.Mapper) :=
  bind_use_case Demo.callable Demo.deepcopy Demo.Mapper new_Mapper
    import_module Demo.format_use_case add_url_rule_error "use_cases" u w.

Definition start (app : option (Flask Demo.callable Demo.Mapper))
  (secret_key jwt_secret_key : option string) :=
  init_flask_app Demo.callable Demo.deepcopy Demo.Mapper new_Mapper
    import_module Demo.format_use_case Demo.empty_app add_url_rule_error
    read_service_metadata None app "utf-8" secret_key jwt_secret_key
    "use_cases".

End Demo2.

(** * Properties *)

(** ** Text *)

Section TextFacts.

Lemma map_chars_app f (a b : string) :
  PyStr.map_chars f (a +:+ b) = PyStr.map_chars f a +:+ PyStr.map_chars f b.
Proof.
  induction a as [|c a IH]; simpl; [reflexivity|]. now rewrite IH.
Qed.

Lemma route_path_app (a b : string) :
  route_path (a +:+ b) = route_path a +:+ route_path b.
Proof. unfold route_path, PyStr.replace_char. now rewrite !map_chars_app. Qed.

Lemma route_path_brace_free (s : string) :
  brace_free s = true -> route_path s = s.
Proof.
  unfold route_path, PyStr.replace_char, brace_free.
  induction s as [|c s IH]; simpl; [reflexivity|].
  intros H. apply andb_prop in H as [Hc Hs].
  apply andb_prop in Hc as [Ho Hcl].
  apply negb_true_iff in Ho, Hcl.
  rewrite Ho, Hcl. f_equal. now apply IH.
Qed.

(** Character by character: the braces become angle brackets, every
    other character stays, whatever the text. *)
Lemma route_path_pointwise (s : string) :
  route_path s =
  PyStr.map_chars
    (fun c => if Ascii.eqb c "{" then "<"%char
              else if Ascii.eqb c "}" then ">"%char else c) s.
Proof.
  unfold route_path, PyStr.replace_char.
  induction s as [|c s IH]; simpl; [reflexivity|].
  rewrite IH. f_equal.
  destruct (Ascii.eqb c "{") eqn:E; [reflexivity|reflexivity].
Qed.

(** On a keyname without white space, splitting the text in which a
    space was put before every capital is splitting at the capitals. *)
Lemma split_sub_capitals (s cur : string) :
  no_space s = true ->
  PyStr.split_ws cur (PyStr.sub_capitals s) = camel_segments_from cur s.
Proof.
  revert cur. unfold no_space.
  induction s as [|c s IH]; intros cur H; simpl in *; [reflexivity|].
  apply andb_prop in H as [Hc Hs]. apply negb_true_iff in Hc.
  destruct (PyStr.is_upper c) eqn:Hup; simpl.
  - rewrite Hc. f_equal. now apply IH.
  - rewrite Hc. now apply IH.
Qed.

End TextFacts.

(** C2. Route-path conversion turns every placeholder [{name}] of a path
    template into [<name>], keeps the placeholders in their order and
    leaves the literal text between them as it is; in particular
    [/users/{id}/posts/{postId}] becomes [/users/<id>/posts/<postId>]. *)
Theorem route_path_template (t : list segment) :
  template_wf t = true ->
  route_path (template_text t) = flask_text t
  /\ route_path "/users/{id}/posts/{postId}" = "/users/<id>/posts/<postId>".
Proof.
  intros Hwf. split; [|reflexivity].
  induction t as [|g t IH]; [reflexivity|].
  simpl in Hwf. apply andb_prop in Hwf as [Hg Ht].
  destruct g as [text|name]; simpl in *.
  - rewrite route_path_app, (route_path_brace_free _ Hg). now rewrite IH.
  - change (String "{" (name +:+ String "}" (template_text t)))
      with ("{" +:+ name +:+ "}" +:+ template_text t).
    rewrite !route_path_app, (route_path_brace_free _ Hg), IH by assumption.
    reflexivity.
Qed.

Lemma route_path_template_witness :
  template_wf [Lit "/users/"; Placeholder "id"; Lit "/posts/"; Placeholder "postId"] = true
  /\ route_path (template_text
       [Lit "/users/"; Placeholder "id"; Lit "/posts/"; Placeholder "postId"])
     = "/users/<id>/posts/<postId>".
Proof.
  split; [reflexivity|].
  exact (proj1 (route_path_template
    [Lit "/users/"; Placeholder "id"; Lit "/posts/"; Placeholder "postId"]
    eq_refl)).
Defined.

(** C6, as claimed, fails on a keyname that holds white space: the
    derivation also splits there and drops the white space. *)
Lemma symbol_name_splits_at_space :
  symbol_name "my useCase" = "MY_USE_CASE"
  /\ spec_symbol_name "my useCase" = "MY USE_CASE"
  /\ symbol_name "my useCase" <> spec_symbol_name "my useCase".
Proof. repeat split; try reflexivity. discriminate. Qed.

(** C6, amended. For a keyname without white space the symbol name is the
    upper-cased camel-case segments of the keyname (a capital letter
    starts a segment) joined by underscores, so that [myUseCase] gives
    [MY_USE_CASE]; the submodule path is [<root>.<keyname>]. *)
Theorem symbol_name_camel_case (root keyname : string) :
  no_space keyname = true ->
  symbol_name keyname = spec_symbol_name keyname
  /\ symbol_name "myUseCase" = "MY_USE_CASE"
  /\ module_path root keyname = root +:+ "." +:+ keyname.
Proof.
  intros H. repeat split.
  unfold symbol_name, spec_symbol_name, PyStr.split, camel_segments.
  now rewrite split_sub_capitals.
Qed.

Lemma symbol_name_camel_case_witness :
  no_space "createUserAccount" = true
  /\ symbol_name "createUserAccount" = "CREATE_USER_ACCOUNT"
  /\ module_path "use_cases" "createUserAccount" = "use_cases.createUserAccount".
Proof.
  split; [reflexivity|].
  pose proof (symbol_name_camel_case "use_cases" "createUserAccount" eq_refl)
    as [H1 [_ H3]].
  split; [rewrite H1; reflexivity | exact H3].
Defined.

(** ** The request adapter *)

Section DictFacts.

Lemma dict_of_items_keeps (items : list (string * pyval))
  (m : gmap string pyval) (k : string) :
  is_Some (m !! k) -> is_Some (dict_of_items m items !! k).
Proof.
  unfold dict_of_items. revert m.
  induction items as [|[k' v'] items IH]; intros m Hm; simpl; [exact Hm|].
  apply IH. destruct (decide (k' = k)) as [->|Hne].
  - rewrite lookup_insert_eq. eauto.
  - now rewrite lookup_insert_ne.
Qed.

Lemma dict_of_items_has (items : list (string * pyval))
  (m : gmap string pyval) (k : string) :
  In k (map fst items) -> is_Some (dict_of_items m items !! k).
Proof.
  revert m. induction items as [|[k' v'] items IH]; intros m Hin; [destruct Hin|].
  simpl in Hin. destruct Hin as [->|Hin].
  - apply (dict_of_items_keeps items). rewrite lookup_insert_eq. eauto.
  - apply (IH _ Hin).
Qed.

Lemma body_kwargs_update (v : pyval) (more : gmap string pyval) :
  body_kwargs v = Some more ->
  dict_update (Building ∅ false) (or_empty_dict v) = inr (Building more false).
Proof.
  unfold body_kwargs, or_empty_dict.
  destruct (truthy v) eqn:Ht.
  - destruct v; try discriminate. intros [= <-]. reflexivity.
  - intros [= <-]. reflexivity.
Qed.

End DictFacts.

Section AdapterFacts.

Variable callable : Type.
Variable apply : callable -> list pyval -> gmap string pyval -> exn + pyval.
Variable Mapper : Type.
Variable Mapper_map : Mapper -> gmap string pyval -> exn + gmap string pyval.
Variable Response : Type.
Variable jsonify : pyval -> exn + Response.

Local Abbreviation adapter :=
  (_lambda_fn callable apply Mapper Mapper_map Response jsonify).

Lemma act_bind_value {A B} (a : A) (k : A -> Act B) :
  act_bind (act_lift (inr a)) k = k a.
Proof. unfold act_bind, act_lift. simpl. now destruct (k a). Qed.

Lemma invoke_then_raw fn args kw :
  act_bind (invoke callable apply fn args kw)
    (fun res => act_ret (Raw (Response := Response) res))
  = ([Call args kw], raw_result (apply fn args kw)).
Proof.
  unfold act_bind, invoke, act_ret, raw_result. simpl.
  destruct (apply fn args kw); reflexivity.
Qed.

(** C4, amended. Without a mapper the use case is called with the
    framework's positional arguments and, as keywords, the framework's
    keywords alone on a GET request (the body is not read), and
    otherwise their union with the decoded body, when that body is a
    JSON object whose keys are none of the framework's keywords (or is
    absent, invalid or false, and counts as empty); the result of the
    use case is returned as it is. *)
Theorem no_mapper_adapter (args : list pyval) (fn : callable)
  (kwargs : gmap string pyval) (req : Request) :
  (is_get req = true ->
     adapter args fn None kwargs req
     = ([Call args kwargs], raw_result (apply fn args kwargs)))
  /\ (forall more : gmap string pyval,
        is_get req = false ->
        body_kwargs (request_get_json req) = Some more ->
        kwargs ##ₘ more ->
        adapter args fn None kwargs req
        = ([Call args (kwargs ∪ more)],
           raw_result (apply fn args (kwargs ∪ more)))).
Proof.
  split.
  - intros Hget. unfold _lambda_fn. rewrite Hget. simpl.
    rewrite act_bind_value. unfold invoke_merged. simpl.
    destruct (decide (kwargs ##ₘ ∅)) as [_|Hn].
    + rewrite (right_id_L ∅ (∪) kwargs). apply invoke_then_raw.
    + destruct Hn. apply map_disjoint_empty_r.
  - intros more Hget Hbody Hdisj. unfold _lambda_fn. rewrite Hget. simpl.
    rewrite (body_kwargs_update _ _ Hbody).
    rewrite act_bind_value. unfold invoke_merged. simpl.
    destruct (decide (kwargs ##ₘ more)) as [_|Hn]; [|contradiction].
    apply invoke_then_raw.
Qed.

(** C10. Without a mapper, on a request that is not a GET and whose
    decoded body is a JSON object with a key that is also a keyword
    supplied by the framework, the call raises the duplicate-keyword
    [TypeError]: the use case is not invoked, with neither value. *)
Theorem duplicate_keyword_raises (args : list pyval) (fn : callable)
  (kwargs : gmap string pyval) (req : Request)
  (items : list (string * pyval)) (k : string) :
  is_get req = false ->
  request_get_json req = VDict items ->
  In k (map fst items) ->
  is_Some (kwargs !! k) ->
  adapter args fn None kwargs req = ([], inl TypeError).
Proof.
  intros Hget Hbody Hin [x Hx]. unfold _lambda_fn. rewrite Hget, Hbody. simpl.
  assert (Hne : or_empty_dict (VDict items) = VDict items).
  { destruct items; [destruct Hin | reflexivity]. }
  rewrite Hne. simpl. rewrite act_bind_value. unfold invoke_merged. simpl.
  destruct (decide (kwargs ##ₘ dict_of_items ∅ items)) as [Hd|_]; [|reflexivity].
  destruct (dict_of_items_has items ∅ k Hin) as [y Hy].
  destruct (map_disjoint_spec kwargs (dict_of_items ∅ items)) as [Hsp _].
  destruct (Hsp Hd k x y Hx Hy).
Qed.

(** C5. With a mapper the adapter builds the snapshot with exactly the
    keys path_query, body, params and headers, gives it to [Mapper.map],
    calls the use case once, with the keywords the mapper returned and
    nothing else, and returns the serialized result; an exception of the
    mapper, of the use case or of the serializer goes through. *)
Theorem mapper_adapter (args : list pyval) (fn : callable) (mapper : Mapper)
  (kwargs : gmap string pyval) (req : Request) :
  dom (snapshot req) = {[ "path_query"; "body"; "params"; "headers" ]}
  /\ snapshot req !! "path_query"
     = Some (VDict (default [] (request_view_args req)))
  /\ snapshot req !! "body" = Some (or_empty_dict (request_get_json req))
  /\ snapshot req !! "params" = Some (VDict (str_items (request_args req)))
  /\ snapshot req !! "headers" = Some (VDict (str_items (request_headers req)))
  /\ adapter args fn (Some mapper) kwargs req
     = match Mapper_map mapper (snapshot req) with
       | inl e => ([], inl e)
       | inr res_map =>
           ([Call [] res_map],
            match apply fn [] res_map with
            | inl e => inl e
            | inr res =>
                match jsonify res with
                | inl e => inl e
                | inr json => inr (Json json)
                end
            end)
       end.
Proof.
  split; [|repeat split].
  - unfold snapshot. rewrite !dom_insert_L, dom_empty_L. set_solver.
  - unfold _lambda_fn, act_bind, act_lift, invoke, act_ret. simpl.
    destruct (Mapper_map mapper (snapshot req)) as [e|res_map]; simpl;
      [reflexivity|].
    destruct (apply fn [] res_map) as [e|res]; simpl; [reflexivity|].
    destruct (jsonify res) as [e|json]; reflexivity.
Qed.

End AdapterFacts.

(** C4, as claimed, fails when the body repeats a keyword of the
    framework: a POST with the path parameter [id] and the body
    [{"id": 9}] raises and the use case is not called. *)
Lemma no_mapper_duplicate_key_not_invoked :
  is_get (Demo.post_request (VDict [("id", VInt 9)])) = false
  /\ body_kwargs (VDict [("id", VInt 9)]) = Some {[ "id" := VInt 9 ]}
  /\ Demo.adapter None {[ "id" := VInt 7 ]}
       (Demo.post_request (VDict [("id", VInt 9)]))
     = ([], inl TypeError).
Proof. repeat split. Qed.

Lemma no_mapper_adapter_witness :
  Demo.adapter None {[ "id" := VInt 7 ]}
    (Demo.post_request (VDict [("qty", VInt 2)]))
  = ([Call [] ({[ "id" := VInt 7 ]} ∪ {[ "qty" := VInt 2 ]})],
     raw_result (Demo.apply "uc" [] ({[ "id" := VInt 7 ]} ∪ {[ "qty" := VInt 2 ]}))).
Proof.
  apply (proj2 (no_mapper_adapter Demo.callable Demo.apply Demo.Mapper
                  Demo.Mapper_map pyval Demo.jsonify [] "uc"
                  {[ "id" := VInt 7 ]}
                  (Demo.post_request (VDict [("qty", VInt 2)])))
           {[ "qty" := VInt 2 ]}).
  - reflexivity.
  - reflexivity.
  - apply map_disjoint_singleton_l_2. apply lookup_singleton_ne. discriminate.
Defined.

Lemma duplicate_keyword_raises_witness :
  Demo.adapter None {[ "id" := VInt 7 ]}
    (Demo.post_request (VDict [("id", VInt 9)]))
  = ([], inl TypeError).
Proof.
  apply (duplicate_keyword_raises Demo.callable Demo.apply Demo.Mapper
           Demo.Mapper_map pyval Demo.jsonify [] "uc" {[ "id" := VInt 7 ]}
           (Demo.post_request (VDict [("id", VInt 9)]))
           [("id", VInt 9)] "id").
  - reflexivity.
  - reflexivity.
  - simpl. left. reflexivity.
  - rewrite lookup_singleton_eq. eauto.
Defined.

(** ** The code generator *)

Section GeneratorFacts.

Lemma str_app_cons (x : ascii) (a b : string) :
  String x a +:+ b = String x (a +:+ b).
Proof. reflexivity. Qed.

Lemma str_app_assoc (a b c : string) : (a +:+ b) +:+ c = a +:+ (b +:+ c).
Proof.
  induction a as [|x a IH]; [reflexivity|].
  rewrite !str_app_cons. f_equal. exact IH.
Qed.

Lemma str_app_nil_r (a : string) : a +:+ "" = a.
Proof.
  induction a as [|x a IH]; [reflexivity|].
  rewrite str_app_cons. f_equal. exact IH.
Qed.

End GeneratorFacts.

(** C8. For a class-based use case with keyname [k], module [m] and class
    [C] the generated construct is named [<k>_uc], its build text contains
    the instantiation [C()] and its import table maps [m] to a set that
    holds [C]; for [my_use_case_cls], [my_module], [MyUseCase] these are
    [my_use_case_cls_uc], [MyUseCase()] and [my_module] to [{MyUseCase}]. *)
Theorem class_use_case_code (k docs m C : string) :
  (exists data,
     _generate_use_case_code_build (CodeInfo (UseCaseCodeInfoClass k docs m C))
     = inr (k +:+ "_uc", data)
     /\ PyStr.contains (build data) (C +:+ "()")
     /\ exists symbols, importing data !! m = Some symbols /\ C ∈ symbols)
  /\ exists data,
       _generate_use_case_code_build
         (CodeInfo (UseCaseCodeInfoClass "my_use_case_cls" "docs" "my_module"
                      "MyUseCase"))
       = inr ("my_use_case_cls_uc", data)
       /\ PyStr.contains (build data) "MyUseCase()"
       /\ importing data = {[ "my_module" := {[ "MyUseCase" ]} ]}.
Proof.
  split.
  - eexists. split; [reflexivity|]. cbn [build importing]. split.
    + exists ((k +:+ "_uc") +:+ " = "), "".
      now rewrite str_app_nil_r, !str_app_assoc.
    + exists {[ C ]}. split; [apply lookup_singleton_eq | set_solver].
  - eexists. split; [reflexivity|]. split; [|reflexivity].
    exists "my_use_case_cls_uc = ", "". reflexivity.
Qed.

(** ** The binder *)

Section BinderFacts.

Variable callable : Type.
Variable deepcopy : callable -> callable.
Variable Mapper : Type.
Variable new_Mapper : string -> list (string * string) -> exn + Mapper.
Variable import_module : string -> exn + gmap string (option callable).
Variable format_use_case : UseCaseInfo -> string.
Variable add_url_rule_error :
  Flask callable Mapper -> url_rule callable Mapper -> option exn.

Local Abbreviation world := (World callable Mapper).
Local Abbreviation add_route :=
  (add_if_http callable deepcopy Mapper new_Mapper add_url_rule_error).
Local Abbreviation find :=
  (locate callable deepcopy Mapper new_Mapper import_module format_use_case
     add_url_rule_error).
Local Abbreviation loop :=
  (triggers_loop callable deepcopy Mapper new_Mapper import_module
     format_use_case add_url_rule_error).
Local Abbreviation bind_one :=
  (bind_use_case callable deepcopy Mapper new_Mapper import_module
     format_use_case add_url_rule_error).
Local Abbreviation bind_all :=
  (use_cases_loop callable deepcopy Mapper new_Mapper import_module
     format_use_case add_url_rule_error).
Local Abbreviation same_callable := (reuses callable deepcopy Mapper).

Lemma world_eta (w : world) :
  {| trace := trace w ++ []; flask_app := flask_app w |} = w.
Proof. destruct w. simpl. now rewrite app_nil_r. Qed.

(** Triggers that are neither HTTP nor WEBSOCKET are stepped over. *)
Lemma loop_skipped src uc pre ts f (w : world) :
  skipped pre = true -> loop src uc (pre ++ ts) f w = loop src uc ts f w.
Proof.
  unfold skipped. induction pre as [|t pre IH]; intros H; [reflexivity|].
  simpl in H. apply andb_prop in H as [Ht Hpre]. simpl.
  rewrite Ht. now apply IH.
Qed.

Lemma same_callable_refl fn (w : world) : same_callable fn w w.
Proof. split; [reflexivity|]. exists []. now rewrite app_nil_r. Qed.

Lemma same_callable_trans fn (w1 w2 w3 : world) :
  same_callable fn w1 w2 -> same_callable fn w2 w3 -> same_callable fn w1 w3.
Proof.
  intros [T1 [a1 [R1 F1]]] [T2 [a2 [R2 F2]]]. split; [congruence|].
  exists (a1 ++ a2). split.
  - now rewrite R2, R1, app_assoc.
  - now apply Forall_app.
Qed.

(** Adding the route of a trigger neither imports nor looks up, and the
    rule it adds, if any, wraps the copy of the callable it was given. *)
Lemma add_route_same_callable uc t fn (w : world) :
  same_callable fn w (add_route uc t fn w).1.
Proof.
  unfold add_if_http, _add_use_case, is_http_options.
  destruct (options t) as [o|]; [|apply same_callable_refl].
  unfold run_bind, _configure_endpoint_cors, run_lift, _use_case_factory.
  set (w1 := (if negb (flag_set (allow_cors o)) then run_ret tt
              else CORS _ _) w).
  assert (H1 : same_callable fn w w1.1 /\ exists u, w1.2 = inr u).
  { subst w1. destruct (negb (flag_set (allow_cors o))); simpl.
    - split; [apply same_callable_refl | eauto].
    - split; [|eauto]. split; [reflexivity|]. exists []. simpl.
      now rewrite app_nil_r. }
  destruct H1 as [H1 [u Hu]]. destruct w1 as [w1' r1]. simpl in *. subst r1.
  destruct (mapper o) as [base|].
  - destruct (new_Mapper _ base) as [e|m]; [exact H1|].
    unfold add_url_rule.
    destruct (add_url_rule_error (flask_app w1') _) as [e|]; [exact H1|].
    apply (same_callable_trans _ _ _ _ H1). split; [reflexivity|].
    eexists [_]. simpl. split; [reflexivity|]. repeat constructor.
  - unfold add_url_rule.
    destruct (add_url_rule_error (flask_app w1') _) as [e|]; [exact H1|].
    apply (same_callable_trans _ _ _ _ H1). split; [reflexivity|].
    eexists [_]. simpl. split; [reflexivity|]. repeat constructor.
Qed.

(** Once the callable is known, the rest of the loop reuses it. *)
Lemma loop_same_callable src uc ts fn (w : world) :
  same_callable fn w (loop src uc ts (Some fn) w).1.
Proof.
  revert w. induction ts as [|t ts IH]; intros w; simpl;
    [apply same_callable_refl|].
  destruct (negb (qualifies t)); [apply IH|].
  unfold run_bind.
  pose proof (add_route_same_callable uc t fn w) as H.
  destruct (add_route uc t fn w) as [w1 [e|u]]; simpl in *; [exact H|].
  apply (same_callable_trans _ _ _ _ H), IH.
Qed.

(** A use case whose symbol is missing: every qualifying trigger tries
    again, prints again and leaves the application alone. *)
Lemma loop_missing_symbol src uc m ts (w : world) :
  import_module (module_path src (keyname uc)) = inr m ->
  m !! symbol_name (keyname uc) = None ->
  loop src uc ts None w
  = ({| trace := trace w ++
          failed_attempts (module_path src (keyname uc))
            (symbol_name (keyname uc))
            ("Use case implementation '" +:+ format_use_case uc
             +:+ "' not found")
            (length (qualifying ts));
        flask_app := flask_app w |}, inr tt).
Proof.
  intros Himp Hsym. revert w.
  induction ts as [|t ts IH]; intros w; simpl.
  - unfold run_ret. now rewrite world_eta.
  - destruct (qualifies t) eqn:Hq; simpl; [|apply IH].
    unfold run_bind at 1. unfold locate, run_bind, emit, run_lift. simpl.
    rewrite Himp. simpl. rewrite Hsym. simpl. unfold run_ret.
    rewrite IH. simpl. unfold failed_attempts. simpl.
    rewrite <- !app_assoc. reflexivity.
Qed.

(** C1. The cross-origin policy of a route: none is attached when
    [allow_cors] is false or absent; when it is true, one policy is
    attached to the route's path, with the upper-cased method as its
    only allowed method, the headers Content-Type and Authorization,
    credentials supported, and as origins the declared list when there
    is one and it is not empty, the wildcard otherwise. *)
Theorem cors_policy_per_route (p : string) (o : TriggerHttp) (w : world) :
  (_configure_endpoint_cors p o w).2 = inr tt
  /\ (allow_cors o = None \/ allow_cors o = Some false ->
        (_configure_endpoint_cors p o w).1 = w)
  /\ (allow_cors o = Some true ->
        exists c,
          (_configure_endpoint_cors p o w).1
          = {| trace := trace w;
               flask_app :=
                 {| import_name := import_name (flask_app w);
                    config := config (flask_app w);
                    url_rules := url_rules (flask_app w);
                    cors_resources :=
                      cors_resources (flask_app w) ++ [(p, c)] |} |}
          /\ methods c = [PyStr.upper (method o)]
          /\ allow_headers c = ["Content-Type"; "Authorization"]
          /\ supports_credentials c = true
          /\ origins c = match allowed_origins o with
                         | Some (x :: l) => OriginList (x :: l)
                         | _ => OriginStr "*"
                         end).
Proof.
  unfold _configure_endpoint_cors. repeat split.
  - destruct (negb (flag_set (allow_cors o))); reflexivity.
  - intros [H|H]; rewrite H; reflexivity.
  - intros H. rewrite H. simpl. eexists. split; [reflexivity|]. simpl.
    repeat split.
    destruct (allowed_origins o) as [[|x l]|]; reflexivity.
Qed.

(** C3, amended. When the module of a use case holds its symbol, with
    an object that is not [None], the import and the lookup are done
    once, at the first trigger of type HTTP or WEBSOCKET in declared
    order; the triggers after it add their routes around the copy of
    that same object, and none of them imports or looks up again. *)
Theorem import_once_when_found (src : string) (uc : UseCaseInfo)
  (m : gmap string (option callable)) (fn : callable)
  (pre post : list TriggerInfo) (t : TriggerInfo) (w : world) :
  import_module (module_path src (keyname uc)) = inr m ->
  m !! symbol_name (keyname uc) = Some (Some fn) ->
  triggers uc = pre ++ t :: post ->
  skipped pre = true ->
  qualifies t = true ->
  let located :=
    {| trace := trace w ++ [Imported (module_path src (keyname uc));
                            LookedUp (module_path src (keyname uc))
                              (symbol_name (keyname uc))];
       flask_app := flask_app w |} in
  bind_one src uc w
  = run_bind (add_route uc t fn)
      (fun _ => loop src uc post (Some fn)) located
  /\ same_callable fn located (bind_one src uc w).1
  /\ imports_of (trace (bind_one src uc w).1)
     = imports_of (trace w) ++ [module_path src (keyname uc)]
  /\ lookups_of (trace (bind_one src uc w).1)
     = lookups_of (trace w)
       ++ [(module_path src (keyname uc), symbol_name (keyname uc))].
Proof.
  intros Himp Hsym Hts Hpre Hq located.
  assert (Hrun : bind_one src uc w
                 = run_bind (add_route uc t fn)
                     (fun _ => loop src uc post (Some fn)) located).
  { unfold bind_use_case. rewrite Hts, (loop_skipped _ _ _ _ _ _ Hpre).
    simpl. rewrite Hq. simpl.
    unfold run_bind at 1. unfold locate, run_bind, emit, run_lift. simpl.
    rewrite Himp. simpl. rewrite Hsym. simpl.
    rewrite <- app_assoc. simpl. fold located.
    destruct (add_route uc t fn located) as [w1 [e|u]]; reflexivity. }
  assert (Hsame : same_callable fn located (bind_one src uc w).1).
  { rewrite Hrun. unfold run_bind.
    pose proof (add_route_same_callable uc t fn located) as H.
    destruct (add_route uc t fn located) as [w1 [e|u]]; simpl in *;
      [exact H|].
    apply (same_callable_trans _ _ _ _ H), loop_same_callable. }
  split; [exact Hrun|]. split; [exact Hsame|].
  destruct Hsame as [Htr _]. rewrite Htr. subst located. simpl.
  unfold imports_of, lookups_of. rewrite !flat_map_app. simpl. split; reflexivity.
Qed.

(** C7. A use case whose module imports but lacks the symbol does not
    stop the binding: each attempt prints the diagnostic (there is one
    as soon as a trigger is of type HTTP or WEBSOCKET), the application
    keeps its routes and its configuration, no exception is raised and
    the loop goes on with the use cases that follow. *)
Theorem missing_symbol_not_fatal (src : string) (uc : UseCaseInfo)
  (rest : list UseCaseInfo) (m : gmap string (option callable)) (w : world) :
  import_module (module_path src (keyname uc)) = inr m ->
  m !! symbol_name (keyname uc) = None ->
  let line := "Use case implementation '" +:+ format_use_case uc
              +:+ "' not found" in
  let after :=
    {| trace := trace w ++
         failed_attempts (module_path src (keyname uc))
           (symbol_name (keyname uc)) line
           (length (qualifying (triggers uc)));
       flask_app := flask_app w |} in
  bind_one src uc w = (after, inr tt)
  /\ flask_app (bind_one src uc w).1 = flask_app w
  /\ (qualifying (triggers uc) <> [] -> In (Printed line) (trace after))
  /\ bind_all src (uc :: rest) w = bind_all src rest after.
Proof.
  intros Himp Hsym line after.
  assert (Hrun : bind_one src uc w = (after, inr tt)).
  { unfold bind_use_case. apply (loop_missing_symbol _ _ _ _ _ Himp Hsym). }
  split; [exact Hrun|]. split; [now rewrite Hrun|]. split.
  - intros Hne. subst after. simpl. apply in_or_app. right.
    destruct (qualifying (triggers uc)); [contradiction|].
    simpl. right. right. left. reflexivity.
  - simpl. unfold run_bind. now rewrite Hrun.
Qed.

(** C9. A use case with no trigger of type HTTP or WEBSOCKET (or with
    no trigger at all) causes no import, no lookup and no route: the
    world after it is the world before it, and the loop goes on. *)
Theorem no_qualifying_trigger_no_effect (src : string) (uc : UseCaseInfo)
  (rest : list UseCaseInfo) (w : world) :
  skipped (triggers uc) = true ->
  bind_one src uc w = (w, inr tt)
  /\ bind_all src (uc :: rest) w = bind_all src rest w.
Proof.
  intros H.
  assert (Hrun : bind_one src uc w = (w, inr tt)).
  { unfold bind_use_case.
    rewrite <- (app_nil_r (triggers uc)), (loop_skipped _ _ _ _ _ _ H).
    reflexivity. }
  split; [exact Hrun|]. simpl. unfold run_bind. now rewrite Hrun.
Qed.

End BinderFacts.

(** ** The properties on the concrete deployment *)

(** C3, as claimed, fails when the symbol is missing: the use case
    [ghost] has two HTTP triggers and its module is imported, and the
    symbol looked up, at each of them. *)
Lemma import_repeated_when_symbol_missing :
  length (qualifying (triggers Demo.ghost)) = 2
  /\ imports_of (trace (Demo.run_use_case Demo.ghost Demo.world0).1)
     = ["use_cases.ghost"; "use_cases.ghost"]
  /\ lookups_of (trace (Demo.run_use_case Demo.ghost Demo.world0).1)
     = [("use_cases.ghost", "GHOST"); ("use_cases.ghost", "GHOST")]
  /\ length (imports_of (trace (Demo.run_use_case Demo.ghost Demo.world0).1)) <> 1.
Proof. repeat split. vm_compute. discriminate. Qed.

Lemma import_once_when_found_witness :
  length (qualifying (triggers Demo.my_use_case)) = 2
  /\ imports_of (trace (Demo.run_use_case Demo.my_use_case Demo.world0).1)
     = ["use_cases.myUseCase"]
  /\ lookups_of (trace (Demo.run_use_case Demo.my_use_case Demo.world0).1)
     = [("use_cases.myUseCase", "MY_USE_CASE")].
Proof.
  split; [reflexivity|].
  pose proof (import_once_when_found Demo.callable Demo.deepcopy Demo.Mapper
                Demo.new_Mapper Demo.import_module Demo.format_use_case
                Demo.add_url_rule_error "use_cases" Demo.my_use_case
                {[ "MY_USE_CASE" := Some "my_use_case_object" ]}
                "my_use_case_object" [Demo.schedule]
                [Demo.http "post" "/things" None None]
                (Demo.http "get" "/things/{id}" (Some true) None)
                Demo.world0 eq_refl eq_refl eq_refl eq_refl eq_refl)
    as [_ [_ [Hi Hl]]].
  split; [exact Hi | exact Hl].
Defined.

Lemma missing_symbol_not_fatal_witness :
  flask_app (Demo.run_use_case Demo.ghost Demo.world0).1 = flask_app Demo.world0
  /\ (Demo.run_use_case Demo.ghost Demo.world0).2 = inr tt
  /\ In (Printed "Use case implementation 'ghost' not found")
       (trace (Demo.run_use_case Demo.ghost Demo.world0).1).
Proof.
  pose proof (missing_symbol_not_fatal Demo.callable Demo.deepcopy Demo.Mapper
                Demo.new_Mapper Demo.import_module Demo.format_use_case
                Demo.add_url_rule_error "use_cases" Demo.ghost
                [Demo.my_use_case] ∅ Demo.world0 eq_refl eq_refl)
    as [Hrun [Happ [Hdiag _]]].
  split; [exact Happ|]. unfold Demo.run_use_case. rewrite Hrun.
  split; [reflexivity|]. apply Hdiag. discriminate.
Defined.

Lemma no_qualifying_trigger_no_effect_witness :
  skipped (triggers Demo.timer) = true
  /\ Demo.run_use_case Demo.timer Demo.world0 = (Demo.world0, inr tt).
Proof.
  split; [reflexivity|].
  exact (proj1 (no_qualifying_trigger_no_effect Demo.callable Demo.deepcopy
                  Demo.Mapper Demo.new_Mapper Demo.import_module
                  Demo.format_use_case Demo.add_url_rule_error "use_cases"
                  Demo.timer [] Demo.world0 eq_refl)).
Defined.

(** * Further properties of the code *)

(** ** Text *)

Section MoreTextFacts.

Lemma upper_char_not_lower (c : ascii) :
  PyStr.is_lower (PyStr.upper_char c) = false.
Proof. destruct c as [[] [] [] [] [] [] [] []]; reflexivity. Qed.

Lemma upper_char_space (c : ascii) :
  PyStr.is_space (PyStr.upper_char c) = PyStr.is_space c.
Proof. destruct c as [[] [] [] [] [] [] [] []]; reflexivity. Qed.

Lemma forallb_chars_app p (a b : string) :
  PyStr.forallb_chars p (a +:+ b)
  = PyStr.forallb_chars p a && PyStr.forallb_chars p b.
Proof.
  induction a as [|c a IH]; [reflexivity|].
  rewrite str_app_cons. simpl. now rewrite IH, andb_assoc.
Qed.

Lemma forallb_chars_map p f (s : string) :
  PyStr.forallb_chars p (PyStr.map_chars f s)
  = PyStr.forallb_chars (fun c => p (f c)) s.
Proof. induction s as [|c s IH]; simpl; [reflexivity|]. now rewrite IH. Qed.

Lemma forallb_chars_ext p q (s : string) :
  (forall c, p c = q c) -> PyStr.forallb_chars p s = PyStr.forallb_chars q s.
Proof.
  intros H. induction s as [|c s IH]; simpl; [reflexivity|]. now rewrite H, IH.
Qed.

Lemma forallb_chars_true (s : string) :
  PyStr.forallb_chars (fun _ => true) s = true.
Proof. induction s as [|c s IH]; simpl; [reflexivity|exact IH]. Qed.

Lemma upper_no_lower (s : string) : no_lower (PyStr.upper s) = true.
Proof.
  unfold no_lower, PyStr.upper. rewrite forallb_chars_map.
  rewrite (forallb_chars_ext _ (fun _ => true)); [apply forallb_chars_true|].
  intros c. now rewrite upper_char_not_lower.
Qed.

Lemma upper_no_space (s : string) : no_space (PyStr.upper s) = no_space s.
Proof.
  unfold no_space, PyStr.upper. rewrite forallb_chars_map.
  apply forallb_chars_ext. intros c. now rewrite upper_char_space.
Qed.

Lemma route_path_is_brace_free (s : string) : brace_free (route_path s) = true.
Proof.
  rewrite route_path_pointwise. unfold brace_free.
  rewrite forallb_chars_map.
  rewrite (forallb_chars_ext _ (fun _ => true)); [apply forallb_chars_true|].
  intros c. destruct (Ascii.eqb c "{") eqn:E1; [reflexivity|].
  destruct (Ascii.eqb c "}") eqn:E2; [reflexivity|]. now rewrite E1, E2.
Qed.

Lemma forallb_over_map {A B} (p : B -> bool) (f : A -> B) (l : list A) :
  forallb p (map f l) = forallb (fun x => p (f x)) l.
Proof. induction l as [|x l IH]; simpl; [reflexivity|]. now rewrite IH. Qed.

Lemma map_chars_length f (s : string) :
  String.length (PyStr.map_chars f s) = String.length s.
Proof. induction s as [|c s IH]; simpl; [reflexivity|]. now rewrite IH. Qed.

Lemma forallb_chars_join p (sep : string) (l : list string) :
  PyStr.forallb_chars p sep = true ->
  forallb (PyStr.forallb_chars p) l = true ->
  PyStr.forallb_chars p (PyStr.join sep l) = true.
Proof.
  intros Hsep. induction l as [|x l IH]; intros H; [reflexivity|].
  simpl in H. apply andb_prop in H as [Hx Hl].
  destruct l as [|y l]; [exact Hx|].
  change (PyStr.join sep (x :: y :: l))
    with (x +:+ sep +:+ PyStr.join sep (y :: l)).
  rewrite !forallb_chars_app, Hx, Hsep. simpl. now apply IH.
Qed.

(** Every word [str.split] returns is free of white space. *)
Lemma split_ws_words (s cur : string) :
  no_space cur = true -> forallb no_space (PyStr.split_ws cur s) = true.
Proof.
  revert cur. induction s as [|c s IH]; intros cur Hcur; simpl.
  - destruct cur; [reflexivity|]. simpl. now rewrite Hcur.
  - destruct (PyStr.is_space c) eqn:Hc.
    + destruct cur; [now apply IH|]. simpl. rewrite Hcur. now apply IH.
    + apply IH. unfold no_space, PyStr.snoc in *.
      rewrite forallb_chars_app, Hcur. simpl. now rewrite Hc.
Qed.

Lemma sub_capitals_no_upper (s : string) :
  no_upper s = true -> PyStr.sub_capitals s = s.
Proof.
  unfold no_upper. induction s as [|c s IH]; simpl; [reflexivity|].
  intros H. apply andb_prop in H as [Hc Hs]. apply negb_true_iff in Hc.
  rewrite Hc. f_equal. now apply IH.
Qed.

(** A text without white space is one word, after the word being read. *)
Lemma split_ws_one_word (s cur : string) :
  no_space s = true -> PyStr.split_ws cur s = PyStr.flush (cur +:+ s) [].
Proof.
  unfold no_space. revert cur.
  induction s as [|c s IH]; intros cur H; simpl.
  - now rewrite str_app_nil_r.
  - simpl in H. apply andb_prop in H as [Hc Hs]. apply negb_true_iff in Hc.
    rewrite Hc, (IH _ Hs). unfold PyStr.snoc. now rewrite str_app_assoc.
Qed.

End MoreTextFacts.

(** X1. Whatever the path, the converted route has no brace left and has
    the length of the path. *)
Theorem route_path_no_braces (p : string) :
  brace_free (route_path p) = true
  /\ String.length (route_path p) = String.length p.
Proof.
  split; [apply route_path_is_brace_free|].
  unfold route_path, PyStr.replace_char. now rewrite !map_chars_length.
Qed.

(** X2. Converting twice is converting once, and a path with a brace is
    changed: such a path and its conversion are two metadata paths with
    the same route, so the conversion is not one-to-one. *)
Theorem route_path_collapses (p : string) :
  route_path (route_path p) = route_path p
  /\ (brace_free p = false -> route_path p <> p).
Proof.
  split.
  - apply route_path_brace_free, route_path_is_brace_free.
  - intros Hb Heq. pose proof (route_path_is_brace_free p) as H.
    rewrite Heq in H. congruence.
Qed.

(** X3. The symbol derived from a keyname never holds a lower-case letter
    nor white space. *)
Theorem symbol_name_shape (keyname : string) :
  no_lower (symbol_name keyname) = true
  /\ no_space (symbol_name keyname) = true.
Proof.
  unfold symbol_name. split.
  - apply forallb_chars_join; [reflexivity|].
    rewrite forallb_over_map. apply forallb_forall. intros w _.
    apply upper_no_lower.
  - apply forallb_chars_join; [reflexivity|].
    rewrite forallb_over_map.
    pose proof (split_ws_words (PyStr.sub_capitals keyname) "" eq_refl) as H.
    rewrite forallb_forall in H. apply forallb_forall. intros w Hw.
    fold (no_space (PyStr.upper w)). rewrite upper_no_space. now apply H.
Qed.

(** X4. A keyname without capital letter and without white space (a
    snake-case name) is only upper-cased: no underscore is added. *)
Theorem symbol_name_snake_case (keyname : string) :
  no_upper keyname = true ->
  no_space keyname = true ->
  symbol_name keyname = PyStr.upper keyname.
Proof.
  intros Hup Hsp. unfold symbol_name, PyStr.split.
  rewrite (sub_capitals_no_upper _ Hup), (split_ws_one_word _ _ Hsp).
  destruct keyname; reflexivity.
Qed.

Lemma symbol_name_snake_case_witness :
  no_upper "create_user" = true /\ no_space "create_user" = true
  /\ symbol_name "create_user" = "CREATE_USER".
Proof.
  split; [reflexivity|]. split; [reflexivity|].
  exact (symbol_name_snake_case "create_user" eq_refl eq_refl).
Defined.

(** ** The request adapter and the view function *)

Section MoreAdapterFacts.

Variable callable : Type.
Variable deepcopy : callable -> callable.
Variable apply : callable -> list pyval -> gmap string pyval -> exn + pyval.
Variable Mapper : Type.
Variable new_Mapper : string -> list (string * string) -> exn + Mapper.
Variable Mapper_map : Mapper -> gmap string pyval -> exn + gmap string pyval.
Variable Response : Type.
Variable jsonify : pyval -> exn + Response.

Local Abbreviation adapter :=
  (_lambda_fn callable apply Mapper Mapper_map Response jsonify).
Local Abbreviation factory :=
  (_use_case_factory callable deepcopy Mapper new_Mapper).
Local Abbreviation view_fn := (uc apply Mapper_map jsonify).

(** The keywords [dict.update] builds from an array of pairs. *)
Lemma update_items_pairs (ps : list (string * pyval)) (b : building) :
  update_items b (pair_items ps)
  = inr (Building (dict_of_items (entries b) ps) (other_keys b)).
Proof.
  revert b. induction ps as [|[k v] ps IH]; intros b; simpl.
  - now destruct b.
  - rewrite IH. reflexivity.
Qed.

Lemma no_mapper_get (args : list pyval) (fn : callable)
  (kwargs : gmap string pyval) (req : Request) :
  is_get req = true ->
  adapter args fn None kwargs req
  = ([Call args kwargs], raw_result (apply fn args kwargs)).
Proof.
  intros Hget. unfold _lambda_fn. rewrite Hget. simpl.
  rewrite act_bind_value. unfold invoke_merged. simpl.
  destruct (decide (kwargs ##ₘ ∅)) as [_|Hn].
  - rewrite (right_id_L ∅ (∪) kwargs). apply invoke_then_raw.
  - destruct Hn. apply map_disjoint_empty_r.
Qed.

(** X5. Without a mapper, a request that is not a GET and whose decoded
    body is a true scalar is refused before the use case runs: a number
    or [true] with a [TypeError], a non-empty string with a
    [ValueError]. *)
Theorem scalar_body_rejected (args : list pyval) (fn : callable)
  (kwargs : gmap string pyval) (req : Request) :
  is_get req = false ->
  truthy (request_get_json req) = true ->
  match request_get_json req with
  | VBool _ | VInt _ =>
      adapter args fn None kwargs req = ([], inl TypeError)
  | VStr _ => adapter args fn None kwargs req = ([], inl ValueError)
  | _ => True
  end.
Proof.
  intros Hget Ht. unfold _lambda_fn, or_empty_dict. rewrite Hget, Ht. simpl.
  destruct (request_get_json req) as [|b|z|s|l|items]; try exact I;
    try reflexivity.
  destruct s as [|c s]; [discriminate Ht|]. reflexivity.
Qed.

(** X6. Without a mapper, on a request that is not a GET, a decoded body
    that is a non-empty array of [[key, value]] pairs is taken as
    keywords, like an object: when no key is a keyword of the framework
    the use case is called once with the union. *)
Theorem pairs_body_merged (args : list pyval) (fn : callable)
  (kwargs : gmap string pyval) (req : Request)
  (ps : list (string * pyval)) :
  is_get req = false ->
  request_get_json req = VList (pair_items ps) ->
  ps <> [] ->
  kwargs ##ₘ dict_of_items ∅ ps ->
  adapter args fn None kwargs req
  = ([Call args (kwargs ∪ dict_of_items ∅ ps)],
     raw_result (apply fn args (kwargs ∪ dict_of_items ∅ ps))).
Proof.
  intros Hget Hbody Hne Hdisj. unfold _lambda_fn. rewrite Hget, Hbody. simpl.
  assert (Hor : or_empty_dict (VList (pair_items ps)) = VList (pair_items ps)).
  { destruct ps; [contradiction | reflexivity]. }
  rewrite Hor. simpl. rewrite update_items_pairs. simpl.
  rewrite act_bind_value. unfold invoke_merged. simpl.
  destruct (decide (kwargs ##ₘ dict_of_items ∅ ps)) as [_|Hn]; [|contradiction].
  apply invoke_then_raw.
Qed.

(** X7. The view function the factory returns for a use case calls the
    deep copy of the callable, with the mapper built from the trigger's
    table under the name [Mapper <keyname>] (none without a table); a
    keyword of the framework named [fn] or [__mapper__] collides with the
    view's own keywords and raises before anything is called. *)
Theorem view_function_of_factory (use_case_name : string) (fn : callable)
  (table : option (list (string * string))) (v : view_func callable Mapper)
  (args : list pyval) (kwargs : gmap string pyval) (req : Request) :
  factory use_case_name fn table = inr v ->
  (is_Some (kwargs !! "fn") \/ is_Some (kwargs !! "__mapper__") ->
     view_fn v args kwargs req = ([], inl TypeError))
  /\ (kwargs !! "fn" = None -> kwargs !! "__mapper__" = None ->
        view_fn v args kwargs req
        = adapter args (deepcopy fn) (view_mapper v) kwargs req
        /\ match table with
           | None => view_mapper v = None
           | Some base =>
               exists m, new_Mapper ("Mapper " +:+ use_case_name) base = inr m
                         /\ view_mapper v = Some m
           end)
  /\ (kwargs !! "fn" = None -> kwargs !! "__mapper__" = None ->
        table = None -> is_get req = true ->
        view_fn v args kwargs req
        = ([Call args kwargs], raw_result (apply (deepcopy fn) args kwargs))).
Proof.
  intros Hv.
  assert (Hcopy : use_case_fn_copy v = deepcopy fn).
  { unfold _use_case_factory in Hv. destruct table as [base|].
    - destruct (new_Mapper _ base); [discriminate|]. now injection Hv as <-.
    - now injection Hv as <-. }
  assert (Hmap : match table with
                 | None => view_mapper v = None
                 | Some base =>
                     exists m, new_Mapper ("Mapper " +:+ use_case_name) base
                               = inr m /\ view_mapper v = Some m
                 end).
  { unfold _use_case_factory in Hv. destruct table as [base|].
    - destruct (new_Mapper _ base) as [e|m]; [discriminate|].
      exists m. split; [reflexivity|]. now injection Hv as <-.
    - now injection Hv as <-. }
  split; [|split].
  - unfold uc. intros [[x Hx]|[x Hx]]; rewrite Hx; [reflexivity|].
    now destruct (kwargs !! "fn").
  - intros H1 H2. unfold uc. rewrite H1, H2, Hcopy. split; [reflexivity|exact Hmap].
  - intros H1 H2 -> Hget. unfold uc. rewrite H1, H2, Hcopy, Hmap.
    now apply no_mapper_get.
Qed.

End MoreAdapterFacts.

Lemma scalar_body_rejected_witness :
  Demo.adapter None {[ "id" := VInt 7 ]} (Demo.post_request (VStr "ab"))
  = ([], inl ValueError).
Proof.
  exact (scalar_body_rejected Demo.callable Demo.apply Demo.Mapper
           Demo.Mapper_map pyval Demo.jsonify [] "uc" {[ "id" := VInt 7 ]}
           (Demo.post_request (VStr "ab")) eq_refl eq_refl).
Defined.

Lemma pairs_body_merged_witness :
  Demo.adapter None {[ "id" := VInt 7 ]}
    (Demo.post_request (VList [VList [VStr "qty"; VInt 2]]))
  = ([Call [] ({[ "id" := VInt 7 ]} ∪ dict_of_items ∅ [("qty", VInt 2)])],
     raw_result (Demo.apply "uc" []
                   ({[ "id" := VInt 7 ]} ∪ dict_of_items ∅ [("qty", VInt 2)]))).
Proof.
  apply (pairs_body_merged Demo.callable Demo.apply Demo.Mapper
           Demo.Mapper_map pyval Demo.jsonify [] "uc" {[ "id" := VInt 7 ]}
           (Demo.post_request (VList [VList [VStr "qty"; VInt 2]]))
           [("qty", VInt 2)]).
  - reflexivity.
  - reflexivity.
  - discriminate.
  - apply map_disjoint_singleton_l_2. reflexivity.
Defined.

Lemma view_function_of_factory_witness :
  uc Demo.apply Demo.Mapper_map Demo.jsonify
    {| use_case_fn_copy := "my_use_case_object"; view_mapper := None |}
    [] {[ "fn" := VStr "x" ]} (Demo.post_request VNone)
  = ([], inl TypeError).
Proof.
  apply (proj1 (view_function_of_factory Demo.callable Demo.deepcopy Demo.apply
                  Demo.Mapper Demo.new_Mapper Demo.Mapper_map pyval
                  Demo.jsonify "myUseCase" "my_use_case_object" None
                  {| use_case_fn_copy := "my_use_case_object";
                     view_mapper := None |}
                  [] {[ "fn" := VStr "x" ]} (Demo.post_request VNone)
                  eq_refl)).
  left. rewrite lookup_singleton_eq. eauto.
Defined.

(** ** The binder: what it keeps and what it adds *)

Section MoreBinderFacts.

Variable callable : Type.
Variable deepcopy : callable -> callable.
Variable Mapper : Type.
Variable new_Mapper : string -> list (string * string) -> exn + Mapper.
Variable import_module : string -> exn + gmap string (option callable).
Variable format_use_case : UseCaseInfo -> string.
Variable new_Flask : string -> Flask callable Mapper.
Variable add_url_rule_error :
  Flask callable Mapper -> url_rule callable Mapper -> option exn.
Variable read_service_metadata : option string -> string -> exn + ServiceInfo.

Local Abbreviation world := (World callable Mapper).
Local Abbreviation add_rule := (add_url_rule callable Mapper add_url_rule_error).
Local Abbreviation add_case :=
  (_add_use_case callable deepcopy Mapper new_Mapper add_url_rule_error).
Local Abbreviation add_route :=
  (add_if_http callable deepcopy Mapper new_Mapper add_url_rule_error).
Local Abbreviation find :=
  (locate callable deepcopy Mapper new_Mapper import_module format_use_case
     add_url_rule_error).
Local Abbreviation loop :=
  (triggers_loop callable deepcopy Mapper new_Mapper import_module
     format_use_case add_url_rule_error).
Local Abbreviation bind_one :=
  (bind_use_case callable deepcopy Mapper new_Mapper import_module
     format_use_case add_url_rule_error).
Local Abbreviation bind_all :=
  (use_cases_loop callable deepcopy Mapper new_Mapper import_module
     format_use_case add_url_rule_error).
Local Abbreviation init :=
  (init_flask_app callable deepcopy Mapper new_Mapper import_module
     format_use_case new_Flask add_url_rule_error read_service_metadata).

Section Growth.

Variable P : url_rule callable Mapper -> bool.
Variable Q : string * cors_config -> bool.

Lemma grows_refl (w : world) : grows P Q w w.
Proof.
  repeat split; try (exists []; now rewrite app_nil_r).
Qed.

Lemma grows_trans (w1 w2 w3 : world) :
  grows P Q w1 w2 -> grows P Q w2 w3 -> grows P Q w1 w3.
Proof.
  intros (N1 & C1 & [e1 T1] & [a1 [R1 F1]] & [c1 [S1 G1]])
         (N2 & C2 & [e2 T2] & [a2 [R2 F2]] & [c2 [S2 G2]]).
  split; [congruence|]. split; [congruence|]. split; [|split].
  - exists (e1 ++ e2). now rewrite T2, T1, app_assoc.
  - exists (a1 ++ a2). split; [now rewrite R2, R1, app_assoc|].
    now rewrite forallb_app, F1, F2.
  - exists (c1 ++ c2). split; [now rewrite S2, S1, app_assoc|].
    now rewrite forallb_app, G1, G2.
Qed.

Lemma grows_bind {A B} (c : Run callable Mapper A)
  (k : A -> Run callable Mapper B) :
  (forall w, grows P Q w (c w).1) ->
  (forall a w, grows P Q w (k a w).1) ->
  forall w, grows P Q w (run_bind c k w).1.
Proof.
  intros Hc Hk w. unfold run_bind. specialize (Hc w).
  destruct (c w) as [w1 [e|a]]; simpl in *; [exact Hc|].
  apply (grows_trans _ _ _ Hc), Hk.
Qed.

Lemma grows_emit (e : event) (w : world) : grows P Q w (emit e w).1.
Proof.
  simpl. repeat split; try (exists []; now rewrite app_nil_r).
  now exists [e].
Qed.

Lemma grows_add_rule (r : url_rule callable Mapper) (w : world) :
  P r = true -> grows P Q w (add_rule r w).1.
Proof.
  intros Hr. unfold add_url_rule.
  destruct (add_url_rule_error (flask_app w) r); [apply grows_refl|].
  simpl. repeat split; try (exists []; now rewrite app_nil_r).
  exists [r]. split; [reflexivity|]. simpl. now rewrite Hr.
Qed.

End Growth.

Lemma grows_weaken (P P' : url_rule callable Mapper -> bool) Q (w w' : world) :
  (forall u, P u = true -> P' u = true) ->
  grows P Q w w' -> grows P' Q w w'.
Proof.
  intros HP (N & C & T & [a [R F]] & S). repeat split; try assumption.
  exists a. split; [exact R|]. rewrite forallb_forall in *. auto.
Qed.

Lemma grows_cors P (p : string) (o : TriggerHttp) (w : world) :
  brace_free p = true ->
  grows P policy_ok w (_configure_endpoint_cors p o w).1.
Proof.
  intros Hp. unfold _configure_endpoint_cors.
  destruct (negb (flag_set (allow_cors o))); [apply grows_refl|].
  simpl. repeat split; try (exists []; now rewrite app_nil_r).
  eexists [_]. split; [reflexivity|]. unfold policy_ok. simpl.
  rewrite Hp. fold (no_lower (PyStr.upper (method o))).
  rewrite upper_no_lower. simpl.
  destruct (allowed_origins o) as [[|x l]|]; reflexivity.
Qed.

Lemma grows_add_case (u : UseCaseInfo) (t : TriggerInfo) (fn : callable)
  (w : world) :
  grows (rule_ok (keyname u)) policy_ok w (add_case u t fn w).1.
Proof.
  unfold _add_use_case. destruct (options t) as [o|]; [|apply grows_refl].
  apply grows_bind.
  - intros w0. apply grows_cors, route_path_is_brace_free.
  - intros _ w0. apply grows_bind.
    + intros w1. apply grows_refl.
    + intros v w1. apply grows_add_rule. unfold rule_ok. simpl.
      rewrite route_path_is_brace_free, String.eqb_refl. simpl.
      apply upper_no_lower.
Qed.

Lemma grows_add_route (u : UseCaseInfo) (t : TriggerInfo) (fn : callable)
  (w : world) :
  grows (rule_ok (keyname u)) policy_ok w (add_route u t fn w).1.
Proof.
  unfold add_if_http. destruct (is_http_options t);
    [apply grows_add_case | apply grows_refl].
Qed.

Lemma grows_find (src : string) (u : UseCaseInfo) (t : TriggerInfo)
  (w : world) :
  grows (rule_ok (keyname u)) policy_ok w (find src u t w).1.
Proof.
  unfold locate. apply grows_bind; [apply grows_emit|].
  intros _ w0. apply grows_bind; [intros w1; apply grows_refl|].
  intros m w1. apply grows_bind; [apply grows_emit|].
  intros _ w2. destruct (m !! symbol_name (keyname u)) as [[fn|]|].
  - apply grows_bind; [apply grows_add_route | intros; apply grows_refl].
  - apply grows_bind; intros; apply grows_refl.
  - apply grows_bind; [apply grows_emit | intros; apply grows_refl].
Qed.

Lemma grows_loop (src : string) (u : UseCaseInfo) (ts : list TriggerInfo)
  (f : option callable) (w : world) :
  grows (rule_ok (keyname u)) policy_ok w (loop src u ts f w).1.
Proof.
  revert f w. induction ts as [|t ts IH]; intros f w; simpl;
    [apply grows_refl|].
  destruct (negb (qualifies t)); [apply IH|].
  destruct f as [fn|].
  - apply grows_bind; [apply grows_add_route | intros; apply IH].
  - apply grows_bind; [apply grows_find | intros; apply IH].
Qed.

Lemma grows_bind_all (src : string) (ucs : list UseCaseInfo) (w : world) :
  grows (rule_of_some ucs) policy_ok w (bind_all src ucs w).1.
Proof.
  revert w. induction ucs as [|u ucs IH]; intros w; simpl;
    [apply grows_refl|].
  apply grows_bind.
  - intros w0. apply (grows_weaken (rule_ok (keyname u))).
    + intros r Hr. unfold rule_of_some. simpl. now rewrite Hr.
    + apply grows_loop.
  - intros _ w0. apply (grows_weaken (rule_of_some ucs)); [|apply IH].
    intros r Hr. unfold rule_of_some in *. simpl. rewrite Hr.
    apply orb_true_r.
Qed.

(** X8. Binding use cases, whether it ends well or with an exception,
    keeps the application's name and configuration, keeps the rules, the
    cross-origin resources and the trace it found, in their order, and
    only appends to them. *)
Theorem binder_only_appends (src : string) (ucs : list UseCaseInfo)
  (w : world) :
  import_name (flask_app (bind_all src ucs w).1) = import_name (flask_app w)
  /\ config (flask_app (bind_all src ucs w).1) = config (flask_app w)
  /\ (exists events, trace (bind_all src ucs w).1 = trace w ++ events)
  /\ (exists added,
        url_rules (flask_app (bind_all src ucs w).1)
        = url_rules (flask_app w) ++ added)
  /\ (exists attached,
        cors_resources (flask_app (bind_all src ucs w).1)
        = cors_resources (flask_app w) ++ attached).
Proof.
  destruct (grows_bind_all src ucs w)
    as (N & C & T & [a [R _]] & [c [S _]]).
  repeat split; try assumption; eauto.
Qed.

(** X9. Every rule the binder adds has a path without brace, the keyname
    of one of the use cases as its endpoint and exactly one method, with
    no lower-case letter; every cross-origin resource it attaches is
    under a path without brace, allows one such method and the headers
    Content-Type and Authorization, supports credentials, and has as
    origins the wildcard or a list that is not empty. *)
Theorem binder_adds_well_formed (src : string) (ucs : list UseCaseInfo)
  (w : world) :
  exists added attached,
    url_rules (flask_app (bind_all src ucs w).1)
    = url_rules (flask_app w) ++ added
    /\ cors_resources (flask_app (bind_all src ucs w).1)
       = cors_resources (flask_app w) ++ attached
    /\ (forall u, In u added ->
          brace_free (rule u) = true
          /\ (exists use_case, In use_case ucs /\ endpoint u = keyname use_case)
          /\ exists m, rule_methods u = [m] /\ no_lower m = true)
    /\ (forall pc, In pc attached ->
          brace_free pc.1 = true
          /\ (exists m, methods pc.2 = [m] /\ no_lower m = true)
          /\ allow_headers pc.2 = ["Content-Type"; "Authorization"]
          /\ supports_credentials pc.2 = true
          /\ (origins pc.2 = OriginStr "*"
              \/ exists x l, origins pc.2 = OriginList (x :: l))).
Proof.
  destruct (grows_bind_all src ucs w)
    as (_ & _ & _ & [a [R F]] & [c [S G]]).
  exists a, c. split; [exact R|]. split; [exact S|].
  rewrite forallb_forall in F, G. split.
  - intros u Hu. specialize (F u Hu). unfold rule_of_some in F.
    apply existsb_exists in F as [use_case [Hin Hok]].
    unfold rule_ok in Hok. apply andb_prop in Hok as [Hok Hm].
    apply andb_prop in Hok as [Hb He]. apply String.eqb_eq in He.
    split; [exact Hb|]. split; [eauto|].
    destruct (rule_methods u) as [|m [|m' ms]]; try discriminate. eauto.
  - intros pc Hpc. specialize (G pc Hpc). unfold policy_ok in G.
    apply andb_prop in G as [G Ho]. apply andb_prop in G as [G Hc].
    apply andb_prop in G as [G Hh]. apply andb_prop in G as [Hb Hm].
    apply bool_decide_eq_true in Hh.
    split; [exact Hb|]. split.
    { destruct (methods pc.2) as [|m [|m' ms]]; try discriminate. eauto. }
    split; [exact Hh|]. split; [exact Hc|].
    destruct (origins pc.2) as [[|x l]|s]; try discriminate.
    + right. eauto.
    + left. apply String.eqb_eq in Ho. now subst s.
Qed.

Lemma configure_keeps (key : string) (value : option string)
  (a : Flask callable Mapper) :
  import_name (configure callable Mapper key value a) = import_name a
  /\ url_rules (configure callable Mapper key value a) = url_rules a
  /\ cors_resources (configure callable Mapper key value a) = cors_resources a.
Proof. destruct value; repeat split. Qed.

Lemma configure_lookup (key : string) (value : option string)
  (a : Flask callable Mapper) :
  config (configure callable Mapper key value a) !! key
  = match value with
    | Some v => Some v
    | None => config a !! key
    end.
Proof. destruct value; simpl; [apply lookup_insert_eq | reflexivity]. Qed.

Lemma configure_lookup_other (key key' : string) (value : option string)
  (a : Flask callable Mapper) :
  key <> key' ->
  config (configure callable Mapper key value a) !! key' = config a !! key'.
Proof.
  intros H. destruct value; simpl; [now apply lookup_insert_ne | reflexivity].
Qed.

(** X10. When the metadata can be read, [init_flask_app] works on the
    application it was given, or on a new one named after the service:
    the secret keys are set when they are given and otherwise left as
    they were, no other configuration key changes, the rules of the
    application are kept before the ones added, and the application is
    what is returned when the binding ends well. *)
Theorem init_flask_app_result (path : option string)
  (app : option (Flask callable Mapper)) (encoding : string)
  (secret_key jwt_secret_key : option string) (src : string)
  (service_info : ServiceInfo) :
  read_service_metadata path encoding = inr service_info ->
  let app0 := default (new_Flask (name service_info)) app in
  exists w r,
    init path app encoding secret_key jwt_secret_key src = inr (w, r)
    /\ import_name (flask_app w) = import_name app0
    /\ config (flask_app w) !! "SECRET_KEY"
       = match secret_key with
         | Some v => Some v
         | None => config app0 !! "SECRET_KEY"
         end
    /\ config (flask_app w) !! "JWT_SECRET_KEY"
       = match jwt_secret_key with
         | Some v => Some v
         | None => config app0 !! "JWT_SECRET_KEY"
         end
    /\ (forall key, key <> "SECRET_KEY" -> key <> "JWT_SECRET_KEY" ->
          config (flask_app w) !! key = config app0 !! key)
    /\ (exists added, url_rules (flask_app w) = url_rules app0 ++ added)
    /\ (forall a, r = inr a -> a = flask_app w).
Proof.
  intros Hmeta app0. unfold init_flask_app. rewrite Hmeta. fold app0.
  set (app1 := configure callable Mapper "SECRET_KEY" secret_key app0).
  set (app2 := configure callable Mapper "JWT_SECRET_KEY" jwt_secret_key app1).
  set (start := {| trace := []; flask_app := app2 |}).
  destruct (binder_only_appends src (map snd (use_cases service_info)) start)
    as (N & C & _ & [added R] & _).
  eexists _, _. split; [reflexivity|]. cbn [fst snd].
  rewrite N, C. subst start. cbn [flask_app].
  destruct (configure_keeps "JWT_SECRET_KEY" jwt_secret_key app1)
    as (N2 & R2 & _).
  destruct (configure_keeps "SECRET_KEY" secret_key app0) as (N1 & R1 & _).
  fold app1 in N1, R1. fold app2 in N2, R2.
  split; [congruence|]. split.
  { subst app2. rewrite configure_lookup_other by discriminate.
    apply configure_lookup. }
  split.
  { subst app2. rewrite configure_lookup.
    destruct jwt_secret_key; [reflexivity|].
    subst app1. now rewrite configure_lookup_other by discriminate. }
  split.
  { intros key H1 H2. subst app2 app1.
    now rewrite !configure_lookup_other by congruence. }
  split.
  { exists added. rewrite R. cbn [flask_app]. congruence. }
  intros a Ha.
  destruct ((bind_all src (map snd (use_cases service_info)) _).2);
    [discriminate | now injection Ha as <-].
Qed.

(** ** The binder: failures and edge cases *)

Lemma loop_import_fails (src : string) (u : UseCaseInfo) (e : exn)
  (ts : list TriggerInfo) (w : world) :
  import_module (module_path src (keyname u)) = inl e ->
  loop src u ts None w
  = match qualifying ts with
    | [] => (w, inr tt)
    | _ :: _ =>
        ({| trace := trace w ++ [Imported (module_path src (keyname u))];
            flask_app := flask_app w |}, inl e)
    end.
Proof.
  intros Himp. induction ts as [|t ts IH]; simpl; [reflexivity|].
  destruct (qualifies t) eqn:Hq; simpl; [|exact IH].
  unfold run_bind at 1. unfold locate, run_bind, emit, run_lift. simpl.
  now rewrite Himp.
Qed.

(** X11. A module that cannot be imported is fatal: at the first trigger
    of type HTTP or WEBSOCKET the exception of the import ends the
    binding of the use case and of every use case after it, and the
    application is left as it was. *)
Theorem import_error_is_fatal (src : string) (u : UseCaseInfo)
  (rest : list UseCaseInfo) (e : exn) (w : world) :
  import_module (module_path src (keyname u)) = inl e ->
  qualifying (triggers u) <> [] ->
  let stopped :=
    {| trace := trace w ++ [Imported (module_path src (keyname u))];
       flask_app := flask_app w |} in
  bind_one src u w = (stopped, inl e)
  /\ bind_all src (u :: rest) w = (stopped, inl e).
Proof.
  intros Himp Hq stopped.
  assert (Hrun : bind_one src u w = (stopped, inl e)).
  { unfold bind_use_case. rewrite (loop_import_fails _ _ _ _ _ Himp).
    destruct (qualifying (triggers u)); [contradiction | reflexivity]. }
  split; [exact Hrun|]. simpl. unfold run_bind. now rewrite Hrun.
Qed.

Lemma loop_symbol_none (src : string) (u : UseCaseInfo)
  (m : gmap string (option callable)) (ts : list TriggerInfo) (w : world) :
  import_module (module_path src (keyname u)) = inr m ->
  m !! symbol_name (keyname u) = Some None ->
  loop src u ts None w
  = ({| trace := trace w ++
          concat (repeat [Imported (module_path src (keyname u));
                          LookedUp (module_path src (keyname u))
                            (symbol_name (keyname u))]
                    (length (qualifying ts)));
        flask_app := flask_app w |}, inr tt).
Proof.
  intros Himp Hsym. revert w.
  induction ts as [|t ts IH]; intros w; simpl.
  - unfold run_ret. destruct w. simpl. now rewrite app_nil_r.
  - destruct (qualifies t) eqn:Hq; simpl; [|apply IH].
    unfold run_bind at 1. unfold locate, run_bind, emit, run_lift. simpl.
    rewrite Himp. simpl. rewrite Hsym. simpl. unfold run_ret.
    rewrite IH. simpl. rewrite <- !app_assoc. reflexivity.
Qed.

(** X12. A symbol that exists but is bound to [None] is passed over in
    silence: no route is added and nothing is printed, the binding goes
    on, and every trigger of type HTTP or WEBSOCKET imports the module
    and looks the symbol up again. *)
Theorem symbol_bound_to_none (src : string) (u : UseCaseInfo)
  (rest : list UseCaseInfo) (m : gmap string (option callable)) (w : world) :
  import_module (module_path src (keyname u)) = inr m ->
  m !! symbol_name (keyname u) = Some None ->
  let after :=
    {| trace := trace w ++
         concat (repeat [Imported (module_path src (keyname u));
                         LookedUp (module_path src (keyname u))
                           (symbol_name (keyname u))]
                   (length (qualifying (triggers u))));
       flask_app := flask_app w |} in
  bind_one src u w = (after, inr tt)
  /\ bind_all src (u :: rest) w = bind_all src rest after.
Proof.
  intros Himp Hsym after.
  assert (Hrun : bind_one src u w = (after, inr tt)).
  { unfold bind_use_case. apply (loop_symbol_none _ _ _ _ _ Himp Hsym). }
  split; [exact Hrun|]. simpl. unfold run_bind. now rewrite Hrun.
Qed.

(** X13. The cross-origin policy is attached before the mapper is built:
    when the [Mapper] constructor raises, [_add_use_case] raises the same
    exception and adds no rule, but a policy asked for with [allow_cors]
    stays attached to the path. *)
Theorem cors_outlives_mapper_failure (u : UseCaseInfo) (t : TriggerInfo)
  (o : TriggerHttp) (base : list (string * string)) (e : exn)
  (fn : callable) (w : world) :
  options t = OptionsHttp o ->
  mapper o = Some base ->
  new_Mapper ("Mapper " +:+ keyname u) base = inl e ->
  (add_case u t fn w).2 = inl e
  /\ url_rules (flask_app (add_case u t fn w).1) = url_rules (flask_app w)
  /\ (flag_set (allow_cors o) = false -> (add_case u t fn w).1 = w)
  /\ (flag_set (allow_cors o) = true ->
        exists c,
          cors_resources (flask_app (add_case u t fn w).1)
          = cors_resources (flask_app w) ++ [(route_path (path o), c)]).
Proof.
  intros Ho Hm He. unfold _add_use_case. rewrite Ho.
  unfold run_bind, _configure_endpoint_cors, run_lift, _use_case_factory.
  rewrite Hm, He.
  destruct (flag_set (allow_cors o)); simpl.
  - repeat split; [discriminate|]. intros _. eauto.
  - repeat split. discriminate.
Qed.

Lemma loop_without_payload (src : string) (u : UseCaseInfo)
  (ts : list TriggerInfo) (f : option callable) (w : world) :
  http_payloads ts = [] ->
  flask_app (loop src u ts f w).1 = flask_app w.
Proof.
  revert f w. induction ts as [|t ts IH]; intros f w H; [reflexivity|].
  assert (Ht : options t = OptionsOther /\ http_payloads ts = []).
  { unfold http_payloads in H. simpl in H.
    destruct (options t); [discriminate | now split]. }
  destruct Ht as [Ho Hts]. simpl.
  destruct (negb (qualifies t)); [now apply IH|].
  assert (Hadd : forall fn w0, add_route u t fn w0 = (w0, inr tt)).
  { intros fn w0. unfold add_if_http, is_http_options. now rewrite Ho. }
  destruct f as [fn|].
  - unfold run_bind. rewrite Hadd. now apply IH.
  - unfold run_bind at 1. unfold locate, run_bind, emit, run_lift. simpl.
    destruct (import_module (module_path src (keyname u))) as [e|m];
      [reflexivity|]. simpl.
    destruct (m !! symbol_name (keyname u)) as [[fn|]|]; simpl.
    + rewrite Hadd. simpl. unfold run_ret. now rewrite IH.
    + unfold run_ret. now rewrite IH.
    + unfold run_ret. now rewrite IH.
Qed.

(** X14. A use case none of whose triggers carries an HTTP payload (web
    sockets with their own options, for instance) never changes the
    application, whatever the import and the lookup give. *)
Theorem no_http_payload_no_route (src : string) (u : UseCaseInfo) (w : world) :
  http_payloads (triggers u) = [] ->
  flask_app (bind_one src u w).1 = flask_app w.
Proof. intros H. unfold bind_use_case. now apply loop_without_payload. Qed.

Section Accepting.

(** A framework that accepts every rule and a constructor that accepts
    every table. *)
Hypothesis accepts : forall a r, add_url_rule_error a r = None.
Hypothesis builds : forall n base, exists m, new_Mapper n base = inr m.

Lemma add_route_accepted (u : UseCaseInfo) (t : TriggerInfo) (fn : callable)
  (w : world) :
  exists added,
    (add_route u t fn w).2 = inr tt
    /\ trace (add_route u t fn w).1 = trace w
    /\ url_rules (flask_app (add_route u t fn w).1)
       = url_rules (flask_app w) ++ added
    /\ map summary added = map (expected_route (keyname u)) (http_payloads [t]).
Proof.
  unfold add_if_http, is_http_options, _add_use_case, http_payloads. simpl.
  destruct (options t) as [o|]; simpl;
    [|exists []; now rewrite app_nil_r].
  unfold run_bind, _configure_endpoint_cors, run_lift, _use_case_factory,
    add_url_rule.
  destruct (negb (flag_set (allow_cors o))); simpl;
    (destruct (mapper o) as [base|];
     [destruct (builds ("Mapper " +:+ keyname u) base) as [m ->]|];
     rewrite accepts; simpl; eexists [_]; repeat split).
Qed.

Lemma loop_found_accepted (src : string) (u : UseCaseInfo) (fn : callable)
  (ts : list TriggerInfo) (w : world) :
  exists added,
    (loop src u ts (Some fn) w).2 = inr tt
    /\ trace (loop src u ts (Some fn) w).1 = trace w
    /\ url_rules (flask_app (loop src u ts (Some fn) w).1)
       = url_rules (flask_app w) ++ added
    /\ map summary added
       = map (expected_route (keyname u)) (http_payloads (qualifying ts)).
Proof.
  revert w. induction ts as [|t ts IH]; intros w; simpl.
  - exists []. now rewrite app_nil_r.
  - destruct (qualifies t) eqn:Hq; simpl; [|apply IH].
    unfold run_bind.
    destruct (add_route_accepted u t fn w) as (a1 & R1 & T1 & U1 & S1).
    destruct (add_route u t fn w) as [w1 r1]. simpl in *. subst r1.
    destruct (IH w1) as (a2 & R2 & T2 & U2 & S2).
    exists (a1 ++ a2). split; [exact R2|]. split; [congruence|].
    split; [now rewrite U2, U1, app_assoc|].
    unfold http_payloads in *. simpl in *.
    rewrite !map_app, S1, S2. now rewrite app_nil_r.
Qed.

Lemma loop_accepted (src : string) (u : UseCaseInfo)
  (m : gmap string (option callable)) (fn : callable)
  (ts : list TriggerInfo) (w : world) :
  import_module (module_path src (keyname u)) = inr m ->
  m !! symbol_name (keyname u) = Some (Some fn) ->
  exists added,
    (loop src u ts None w).2 = inr tt
    /\ url_rules (flask_app (loop src u ts None w).1)
       = url_rules (flask_app w) ++ added
    /\ map summary added
       = map (expected_route (keyname u)) (http_payloads (qualifying ts)).
Proof.
  intros Himp Hsym. revert w. induction ts as [|t ts IH]; intros w; simpl.
  - exists []. now rewrite app_nil_r.
  - destruct (qualifies t) eqn:Hq; simpl; [|apply IH].
    unfold run_bind at 1. unfold locate, run_bind, emit, run_lift. simpl.
    rewrite Himp. simpl. rewrite Hsym. simpl.
    set (w0 := {| trace := _; flask_app := flask_app w |}).
    destruct (add_route_accepted u t fn w0) as (a1 & R1 & T1 & U1 & S1).
    destruct (add_route u t fn w0) as [w1 r1]. simpl in *. subst r1.
    unfold run_ret. simpl.
    destruct (loop_found_accepted src u fn ts w1) as (a2 & R2 & T2 & U2 & S2).
    exists (a1 ++ a2). split; [exact R2|].
    split; [now rewrite U2, U1, app_assoc|].
    unfold http_payloads in *. simpl in *.
    rewrite !map_app, S1, S2. now rewrite app_nil_r.
Qed.


End Accepting.

End MoreBinderFacts.

(** ** The method test of the adapter *)

Section MethodFacts.

Lemma lower_upper_char (c : ascii) :
  PyStr.lower_char (PyStr.upper_char c) = PyStr.lower_char c.
Proof. destruct c as [[] [] [] [] [] [] [] []]; reflexivity. Qed.

Lemma upper_lower_char (c : ascii) :
  PyStr.upper_char (PyStr.lower_char c) = PyStr.upper_char c.
Proof. destruct c as [[] [] [] [] [] [] [] []]; reflexivity. Qed.

Lemma lower_upper (s : string) : PyStr.lower (PyStr.upper s) = PyStr.lower s.
Proof.
  unfold PyStr.lower, PyStr.upper.
  induction s as [|c s IH]; simpl; [reflexivity|].
  now rewrite lower_upper_char, IH.
Qed.

Lemma upper_lower (s : string) : PyStr.upper (PyStr.lower s) = PyStr.upper s.
Proof.
  unfold PyStr.lower, PyStr.upper.
  induction s as [|c s IH]; simpl; [reflexivity|].
  now rewrite upper_lower_char, IH.
Qed.

End MethodFacts.

(** X16. The adapter takes a request for a GET exactly when its method,
    upper-cased, is [GET]: the letter case of the method does not count. *)
Theorem is_get_ignores_case (req : Request) :
  is_get req = true <-> PyStr.upper (request_method req) = "GET".
Proof.
  unfold is_get. rewrite String.eqb_eq. split; intros H.
  - rewrite <- upper_lower, H. reflexivity.
  - rewrite <- lower_upper, H. reflexivity.
Qed.

(** ** The further properties on the concrete deployments *)

Lemma init_flask_app_result_witness :
  exists w r,
    Demo2.start None (Some "s3") None = inr (w, r)
    /\ import_name (flask_app w) = "orders"
    /\ config (flask_app w) !! "SECRET_KEY" = Some "s3"
    /\ config (flask_app w) !! "JWT_SECRET_KEY" = None.
Proof.
  destruct (init_flask_app_result Demo.callable Demo.deepcopy Demo.Mapper
              Demo2.new_Mapper Demo2.import_module Demo.format_use_case
              Demo.empty_app Demo2.add_url_rule_error
              Demo2.read_service_metadata None None "utf-8" (Some "s3") None
              "use_cases" Demo2.service eq_refl)
    as (w & r & Hrun & Hname & Hsk & Hjwt & _).
  exists w, r. repeat split; assumption.
Defined.

Lemma import_error_is_fatal_witness :
  qualifying (triggers Demo2.absent) <> []
  /\ Demo2.run_use_case Demo2.absent Demo.world0
     = ({| trace := [Imported "use_cases.absent"];
           flask_app := flask_app Demo.world0 |},
        inl (External "ModuleNotFoundError")).
Proof.
  split; [discriminate|].
  refine (proj1 (import_error_is_fatal Demo.callable Demo.deepcopy Demo.Mapper
                   Demo2.new_Mapper Demo2.import_module Demo.format_use_case
                   Demo2.add_url_rule_error "use_cases" Demo2.absent []
                   (External "ModuleNotFoundError") Demo.world0 eq_refl _)).
  discriminate.
Defined.

Lemma symbol_bound_to_none_witness :
  Demo2.run_use_case Demo2.pending Demo.world0
  = ({| trace := [Imported "use_cases.pending";
                  LookedUp "use_cases.pending" "PENDING";
                  Imported "use_cases.pending";
                  LookedUp "use_cases.pending" "PENDING"];
        flask_app := flask_app Demo.world0 |}, inr tt).
Proof.
  exact (proj1 (symbol_bound_to_none Demo.callable Demo.deepcopy Demo.Mapper
                  Demo2.new_Mapper Demo2.import_module Demo.format_use_case
                  Demo2.add_url_rule_error "use_cases" Demo2.pending []
                  {[ "PENDING" := None ]} Demo.world0 eq_refl eq_refl)).
Defined.


Lemma cors_outlives_mapper_failure_witness :
  (_add_use_case Demo.callable Demo.deepcopy Demo.Mapper Demo2.new_Mapper
     Demo2.add_url_rule_error Demo.my_use_case
     (Demo2.mapped "post" "/orders/{id}" [("id", "cookie.id")])
     "my_use_case_object" Demo.world0).2 = inl (External "ValueError")
  /\ url_rules
       (flask_app
          (_add_use_case Demo.callable Demo.deepcopy Demo.Mapper
             Demo2.new_Mapper Demo2.add_url_rule_error Demo.my_use_case
             (Demo2.mapped "post" "/orders/{id}" [("id", "cookie.id")])
             "my_use_case_object" Demo.world0).1) = [].
Proof.
  destruct (cors_outlives_mapper_failure Demo.callable Demo.deepcopy
              Demo.Mapper Demo2.new_Mapper Demo2.add_url_rule_error
              Demo.my_use_case
              (Demo2.mapped "post" "/orders/{id}" [("id", "cookie.id")])
              {| method := "post"; path := "/orders/{id}";
                 allow_cors := Some true; allowed_origins := None;
                 mapper := Some [("id", "cookie.id")] |}
              [("id", "cookie.id")] (External "ValueError")
              "my_use_case_object" Demo.world0 eq_refl eq_refl eq_refl)
    as (He & Hr & _).
  split; [exact He | exact Hr].
Defined.

Lemma no_http_payload_no_route_witness :
  http_payloads (triggers Demo2.sockets) = []
  /\ flask_app (Demo2.run_use_case Demo2.sockets Demo.world0).1
     = flask_app Demo.world0.
Proof.
  split; [reflexivity|].
  exact (no_http_payload_no_route Demo.callable Demo.deepcopy Demo.Mapper
           Demo2.new_Mapper Demo2.import_module Demo.format_use_case
           Demo2.add_url_rule_error "use_cases" Demo2.sockets Demo.world0
           eq_refl).
Defined.
